(** * Blast-wave viewer: frame synthesis, playback and scaling laws

    A shallow embedding of the numerical core of the simulation viewer
    ([RealTimeSimulationViewer]: [generateFrameData], [runAnimation],
    [handleStop], [handleFrameSeek], the scaling part of [renderBlastWave])
    and of the map component's [calculateBlastRadius]; then of the viewer's
    controls as a state machine, of what its drawing functions put on the
    canvas, and of the code around it: the impulse chart, the simulation
    page's mock data and summary, and bounding boxes.

    Numbers.  The source computes on JavaScript numbers.  They are taken here
    as real numbers: no rounding, no overflow.  Where a JavaScript operation
    of the modelled code leaves the reals ([Math.pow] of a negative base to
    the exponent [1/3], [Math.max] of no values, reading outside an array)
    the result is an [option].  Frame indices, array lengths and the playback
    counters are integers ([Z]); [%] is the truncating remainder [Z.rem]. *)

From Stdlib Require Import Reals ZArith List Bool String Lia Lra.
Import ListNotations.

Open Scope R_scope.

(** ** JavaScript operators used by the source *)

Module JS.

(** [a || b] on numbers: [a] when it is truthy, [b] when it is falsy.
    Among the reals the only falsy number is [0]. *)
Definition or (a b : R) : R :=
  if Req_dec_T a 0 then b else a.

(** [arr[i] || dflt] for an array of objects: objects are truthy, so the
    default is taken exactly when the index is outside the array. *)
Definition index {A : Type} (arr : list A) (i : Z) : option A :=
  if (i <? 0)%Z then None else nth_error arr (Z.to_nat i).

Definition index_or {A : Type} (arr : list A) (i : Z) (dflt : A) : A :=
  match index arr i with
  | Some a => a
  | None => dflt
  end.

(** [a % b] on integers. *)
Definition rem (a b : Z) : Z := Z.rem a b.

(** [Math.pow(x, 1 / 3)]: the cube root of a positive base, [0] at [0], and
    [NaN] (here [None]) for a negative base. *)
Definition pow_third (x : R) : option R :=
  if Rlt_dec 0 x then Some (Rpower x (1 / 3))
  else if Req_dec_T x 0 then Some 0
  else None.

(** The integers [0, 1, ..., n-1] visited by [for (let i = 0; i < n; i++)]. *)
Definition upto (n : nat) : list Z := map Z.of_nat (seq 0 n).

End JS.

(** ** The simulation viewer *)

Module Viewer.

(** An element of the [frames] property. *)
Record FrameSample : Type := mkSample {
  time : R;
  pressure : R;
  velocity : R;
  temperature : R
}.

Record Vec2 : Type := mkVec2 { x : R; y : R }.

(** [interface SimulationFrame].  Its field [time] is called [frame_time]
    here, since a sample has a field [time] too. *)
Record SimulationFrame : Type := mkFrame {
  frame : Z;
  frame_time : R;
  pressureField : list (list R);
  velocityField : list (list Vec2);
  maxPressure : R;
  maxVelocity : R
}.

(** The right operands of [||] in [generateFrameData]: the analytic
    waveforms. *)
Definition analyticPressure (t : R) : R :=
  15.0 * exp (- t * 0.8) * Rmax 0 (1 - t * 0.3).

Definition analyticVelocity (t : R) : R :=
  350.0 * exp (- t * 0.5) * Rmax 0 (sin (t * 1.5)).

(** Body of the inner loop over the 50x50 pressure grid. *)
Definition pressureCell (t maxPressure : R) (i j : Z) : R :=
  let centerX := 25 in
  let centerY := 25 in
  let distance := sqrt ((IZR i - centerX) ^ 2 + (IZR j - centerY) ^ 2) in
  let waveRadius := t * 8 in
  let pressure :=
    if Rle_dec distance waveRadius then
      if Rlt_dec 0 waveRadius then
        let normalizedDistance := distance / waveRadius in
        let timeAtDistance := normalizedDistance * t in
        let tStarLocal := timeAtDistance / 2 in
        if Rlt_dec 0 tStarLocal
        then maxPressure * exp (- tStarLocal) * (1 - tStarLocal)
        else 0
      else 0
    else 0 in
  Rmax 0 pressure.

(** Body of the inner loop over the 25x25 velocity grid. *)
Definition velocityCell (t maxVelocity : R) (i j : Z) : Vec2 :=
  let centerX := 12.5 in
  let centerY := 12.5 in
  let dx := IZR i - centerX in
  let dy := IZR j - centerY in
  let distance := sqrt (dx ^ 2 + dy ^ 2) in
  if Rlt_dec 0 distance then
    let waveRadius := t * 8 in
    let magnitude :=
      if Rlt_dec (Rabs (distance - waveRadius)) 3
      then maxVelocity * (1 - Rabs (distance - waveRadius) / 3)
      else 0 in
    {| x := (magnitude * dx) / distance; y := (magnitude * dy) / distance |}
  else {| x := 0; y := 0 |}.

(** The two nested loops pushing rows of cells. *)
Definition grid {A : Type} (n : nat) (cell : Z -> Z -> A) : list (list A) :=
  map (fun i => map (fun j => cell i j) (JS.upto n)) (JS.upto n).

Definition generateFrameData (frames : list FrameSample) (frameIndex : Z)
  : SimulationFrame :=
  let frame :=
    JS.index_or frames frameIndex
      {| time := IZR frameIndex * 0.1; pressure := 0; velocity := 0;
         temperature := 300 |} in
  let t := JS.or (time frame) (IZR frameIndex * 0.1) in
  let maxPressure := JS.or (pressure frame * 15) (analyticPressure t) in
  let maxVelocity := JS.or (velocity frame * 350) (analyticVelocity t) in
  {| frame := frameIndex;
     frame_time := t;
     pressureField := grid 50 (pressureCell t maxPressure);
     velocityField := grid 25 (velocityCell t maxVelocity);
     maxPressure := maxPressure;
     maxVelocity := maxVelocity |}.

(** Cell [(i, j)] of a field, [field[i][j]]. *)
Definition cellAt {A : Type} (field : list (list A)) (i j : Z) : option A :=
  match JS.index field i with
  | Some row => JS.index row j
  | None => None
  end.

(** The component state that playback reads and writes ([useState]). *)
Record PlaybackState : Type := mkPlayback {
  isPlaying : bool;
  currentFrame : Z;
  totalFrames : Z;
  simulationData : option SimulationFrame;
  playbackSpeed : R
}.

(** The initial values of the [useState] hooks. *)
Definition initialState (frames : list FrameSample) : PlaybackState :=
  {| isPlaying := false;
     currentFrame := 0;
     totalFrames := Z.max (Z.of_nat (List.length frames)) 250;
     simulationData := None;
     playbackSpeed := 1 |}.

(** One run of the animation step: nothing when not playing, otherwise the
    next frame is computed and stored.  Drawing the frame and arming the
    timer for the next run change none of these values. *)
Definition runAnimation (frames : list FrameSample) (st : PlaybackState)
  : PlaybackState :=
  if negb (isPlaying st) then st
  else
    let nextFrame := JS.rem (currentFrame st + 1) (totalFrames st) in
    let frameData := generateFrameData frames nextFrame in
    {| isPlaying := isPlaying st;
       currentFrame := nextFrame;
       totalFrames := totalFrames st;
       simulationData := Some frameData;
       playbackSpeed := playbackSpeed st |}.

Definition handlePlayPause (st : PlaybackState) : PlaybackState :=
  {| isPlaying := negb (isPlaying st);
     currentFrame := currentFrame st;
     totalFrames := totalFrames st;
     simulationData := simulationData st;
     playbackSpeed := playbackSpeed st |}.

Definition handleStop (frames : list FrameSample) (st : PlaybackState)
  : PlaybackState :=
  {| isPlaying := false;
     currentFrame := 0;
     totalFrames := totalFrames st;
     simulationData := Some (generateFrameData frames 0);
     playbackSpeed := playbackSpeed st |}.

Definition handleFrameSeek (frames : list FrameSample) (frame : Z)
  (st : PlaybackState) : PlaybackState :=
  {| isPlaying := isPlaying st;
     currentFrame := frame;
     totalFrames := totalFrames st;
     simulationData := Some (generateFrameData frames frame);
     playbackSpeed := playbackSpeed st |}.

(** The [onClick] handlers of the skip-back and skip-forward buttons. *)
Definition skipBack (frames : list FrameSample) (st : PlaybackState)
  : PlaybackState :=
  handleFrameSeek frames (Z.max 0 (currentFrame st - 10)) st.

Definition skipForward (frames : list FrameSample) (st : PlaybackState)
  : PlaybackState :=
  handleFrameSeek frames
    (Z.min (totalFrames st - 1) (currentFrame st + 10)) st.

(** The scaling computation at the head of [renderBlastWave]; the canvas
    calls that follow it draw and compute nothing that is returned.  Of its
    [explosive] argument only the field [explosiveMass] is read. *)
Record BlastWaveScale : Type := mkScale {
  tntEquivalent : R;
  scaledDistance : option R;
  maxRadius : option R;
  currentRadius : option R
}.

Definition renderBlastWave (frameData : SimulationFrame)
  (explosiveMass width height : R) : BlastWaveScale :=
  let tntEquivalent := JS.or explosiveMass 1000 in
  let scaledDistance := JS.pow_third (tntEquivalent / 1000) in
  let maxRadius :=
    option_map (fun s => Rmin width height * 0.4 * s) scaledDistance in
  let currentRadius :=
    option_map (fun m => (frame_time frameData / 10) * m) maxRadius in
  {| tntEquivalent := tntEquivalent;
     scaledDistance := scaledDistance;
     maxRadius := maxRadius;
     currentRadius := currentRadius |}.

End Viewer.

(** ** The map component *)

Module LeafletMap.

(** The local constant [tntEquivalent] of [calculateBlastRadius]. *)
Definition tntEquivalent (mass : R) (type : string) : R :=
  if String.eqb type "TNT" then mass else mass * 1.34.

Definition calculateBlastRadius (mass : R) (type : string) : option R :=
  option_map (fun c => c * 100) (JS.pow_third (tntEquivalent mass type / 1000)).

End LeafletMap.

(** ** Concrete inputs *)

(** A playback state at frame [cur] of [total] frames, as the component holds it
    between two events. *)
Definition playbackAt (playing : bool) (cur total : Z) : Viewer.PlaybackState :=
  {| Viewer.isPlaying := playing;
     Viewer.currentFrame := cur;
     Viewer.totalFrames := total;
     Viewer.simulationData := None;
     Viewer.playbackSpeed := 1 |}.

(** A frame sample supplied from outside whose time stamp is negative. *)
Definition sampleBeforeDetonation (t : R) : Viewer.FrameSample :=
  {| Viewer.time := t; Viewer.pressure := 0; Viewer.velocity := 0;
     Viewer.temperature := 300 |}.

(** A supplied sample at time 1 whose pressure and velocity are exactly 0. *)
Definition zeroSample : Viewer.FrameSample :=
  {| Viewer.time := 1; Viewer.pressure := 0; Viewer.velocity := 0;
     Viewer.temperature := 300 |}.

(** A supplied sample with non-zero pressure and velocity. *)
Definition liveSample : Viewer.FrameSample :=
  {| Viewer.time := 0.5; Viewer.pressure := 0.2; Viewer.velocity := 0.1;
     Viewer.temperature := 300 |}.

(** ** The viewer's controls as a state machine *)

Module Controls.

(** The [useEffect] that shows the first frame once the component has
    mounted: it runs only while no frame has been stored. *)
Definition mount (frames : list Viewer.FrameSample) (st : Viewer.PlaybackState)
  : Viewer.PlaybackState :=
  match Viewer.simulationData st with
  | Some _ => st
  | None =>
      {| Viewer.isPlaying := Viewer.isPlaying st;
         Viewer.currentFrame := Viewer.currentFrame st;
         Viewer.totalFrames := Viewer.totalFrames st;
         Viewer.simulationData := Some (Viewer.generateFrameData frames 0);
         Viewer.playbackSpeed := Viewer.playbackSpeed st |}
  end.

(** What can happen to a mounted viewer: a click on one of its four buttons,
    a value reported by the frame slider, or the animation timer firing. *)
Inductive Event : Type :=
| PlayPause
| Stop
| Tick
| SkipBack
| SkipForward
| Slide (value : Z).

Definition step (frames : list Viewer.FrameSample) (st : Viewer.PlaybackState)
  (ev : Event) : Viewer.PlaybackState :=
  match ev with
  | PlayPause => Viewer.handlePlayPause st
  | Stop => Viewer.handleStop frames st
  | Tick => Viewer.runAnimation frames st
  | SkipBack => Viewer.skipBack frames st
  | SkipForward => Viewer.skipForward frames st
  | Slide value => Viewer.handleFrameSeek frames value st
  end.

Definition run (frames : list Viewer.FrameSample) (evs : list Event)
  (st : Viewer.PlaybackState) : Viewer.PlaybackState :=
  fold_left (step frames) evs st.

(** The frame slider is rendered with [max = totalFrames - 1] and [step = 1]
    (its [min] is the slider's default, 0): the values it reports lie in that
    range. *)
Definition sliderValue (total : Z) (ev : Event) : bool :=
  match ev with
  | Slide value => (0 <=? value)%Z && (value <=? total - 1)%Z
  | _ => true
  end.

(** [n] runs of the animation step in a row. *)
Definition ticks (frames : list Viewer.FrameSample) (n : nat)
  (st : Viewer.PlaybackState) : Viewer.PlaybackState :=
  Nat.iter n (Viewer.runAnimation frames) st.

(** [const progress = (currentFrame / (totalFrames - 1)) * 100]. *)
Definition progress (st : Viewer.PlaybackState) : R :=
  (IZR (Viewer.currentFrame st) / (IZR (Viewer.totalFrames st) - 1)) * 100.

End Controls.

(** ** What the viewer draws

    The drawing functions of the viewer write to a canvas.  Each is modelled
    by the list of shapes it draws, in drawing order, with the numbers the
    code computes for them; colours are constants of the source and are left
    out. *)

Module Canvas.

(** A filled circle: [ctx.arc(cx, cy, radius, 0, 2 * PI)] with a fill whose
    strongest alpha is [opacity]. *)
Record Disc : Type := mkDisc { cx : R; cy : R; radius : R; opacity : R }.

(** [arr.forEach((item, index) => ...)]: the items with their indices. *)
Definition indexed {A : Type} (arr : list A) : list (Z * A) :=
  combine (JS.upto (List.length arr)) arr.

(** [renderPressureField]: one disc per cell whose pressure exceeds 0.5. *)
Definition renderPressureField (pressureField : list (list R)) (width height : R)
  : list Disc :=
  match pressureField with
  | [] => []
  | row0 :: _ =>
      let cellWidth := width / JS.or (INR (List.length row0)) 1 in
      let cellHeight := height / INR (List.length pressureField) in
      flat_map
        (fun '(i, row) =>
           flat_map
             (fun '(j, pressure) =>
                if Rlt_dec 0.5 pressure then
                  let alpha := Rmin (pressure / 15.0) 1 in
                  let size := alpha * 8 in
                  let x := IZR j * cellWidth + cellWidth / 2 in
                  let y := IZR i * cellHeight + cellHeight / 2 in
                  [ {| cx := x; cy := y; radius := size; opacity := alpha * 0.8 |} ]
                else [])
             (indexed row))
        (indexed pressureField)
  end.

(** The shaft of a velocity arrow, from the cell centre to its tip.  (The two
    strokes of the arrow head start at the tip and are 4 long.) *)
Record Arrow : Type := mkArrow { x0 : R; y0 : R; endX : R; endY : R }.

(** [renderVelocityField]: one arrow per vector longer than 20. *)
Definition renderVelocityField (velocityField : list (list Viewer.Vec2))
  (width height : R) : list Arrow :=
  match velocityField with
  | [] => []
  | row0 :: _ =>
      let cellWidth := width / JS.or (INR (List.length row0)) 1 in
      let cellHeight := height / INR (List.length velocityField) in
      flat_map
        (fun '(i, row) =>
           flat_map
             (fun '(j, velocity) =>
                let magnitude :=
                  sqrt (Viewer.x velocity ^ 2 + Viewer.y velocity ^ 2) in
                if Rlt_dec 20 magnitude then
                  let x := IZR j * cellWidth + cellWidth / 2 in
                  let y := IZR i * cellHeight + cellHeight / 2 in
                  let scale := Rmin (magnitude / 150) 1 * 20 in
                  [ {| x0 := x; y0 := y;
                       endX := x + (Viewer.x velocity / magnitude) * scale;
                       endY := y - (Viewer.y velocity / magnitude) * scale |} ]
                else [])
             (indexed row))
        (indexed velocityField)
  end.

(** [renderExplosionCenter]: the outer glow, the pulsing disc and the white
    core, all at the centre of the canvas. *)
Definition renderExplosionCenter (width height time : R) : list Disc :=
  let centerX := width / 2 in
  let centerY := height / 2 in
  let pulseIntensity := sin (time * 3) * 0.3 + 0.7 in
  let glowIntensity := sin (time * 5) * 0.2 + 0.8 in
  [ {| cx := centerX; cy := centerY; radius := 20 * glowIntensity;
       opacity := glowIntensity * 0.6 |};
    {| cx := centerX; cy := centerY; radius := 10 * pulseIntensity;
       opacity := pulseIntensity |};
    {| cx := centerX; cy := centerY; radius := 4; opacity := 1 |} ].

(** One pressure ring of [renderBlastWave]: its index in the loop, the radius
    of the main stroke (the glow stroke is 5 wider), the alpha the three
    shapes of the ring are scaled from, and the width of the main stroke. *)
Record Ring : Type := mkRing {
  ringIndex : Z;
  waveRadius : R;
  alpha : R;
  lineWidth : R
}.

(** The loop of [renderBlastWave] over its four rings, after the scaling
    computation of [Viewer.renderBlastWave].  When that computation gives no
    number, [waveRadius > 0] is false for every ring. *)
Definition renderBlastWave (frameData : Viewer.SimulationFrame)
  (explosiveMass width height : R) : list Ring :=
  let scale := Viewer.renderBlastWave frameData explosiveMass width height in
  match Viewer.maxRadius scale, Viewer.currentRadius scale with
  | Some maxRadius, Some currentRadius =>
      flat_map
        (fun i =>
           let waveRadius := currentRadius - IZR i * 15 in
           if Rlt_dec 0 waveRadius then
             let pressureRatio := Viewer.maxPressure frameData / 15.0 in
             let alpha :=
               Rmax 0 (pressureRatio * (1 - waveRadius / maxRadius) - IZR i * 0.15) in
             [ {| ringIndex := i; waveRadius := waveRadius; alpha := alpha;
                  lineWidth := 4 - IZR i |} ]
           else [])
        (JS.upto 4)
  | _, _ => []
  end.

End Canvas.

(** ** The impulse chart *)

Module ImpulseChart.

(** An element of the chart's [data] property; [velocity] and [temperature]
    are optional there. *)
Record DataPoint : Type := mkDataPoint {
  time : R;
  pressure : R;
  velocity : option R;
  temperature : option R
}.

(** An element of [impulseData]. *)
Record ImpulsePoint : Type := mkImpulsePoint {
  point_time : R;
  impulse : R;
  point_velocity : R
}.

(** [point.velocity || 0] for an optional number. *)
Definition velocity_or_0 (point : DataPoint) : R :=
  match velocity point with
  | Some v => JS.or v 0
  | None => 0
  end.

(** The inner loop of [impulseData] for one [index].  Reading a field of
    [data[i]] when [i] is outside the array throws; that outcome is [None]. *)
Definition impulseUpTo (data : list DataPoint) (index : nat) : option R :=
  fold_left
    (fun (acc : option R) (i : nat) =>
       match acc with
       | None => None
       | Some impulse =>
           if (0 <? i)%nat then
             match nth_error data i, nth_error data (i - 1) with
             | Some di, Some dprev =>
                 let dt := time di - time dprev in
                 Some (impulse + pressure di * dt)
             | _, _ => None
             end
           else Some impulse
       end)
    (seq 0 (S index)) (Some 0).

(** All results when none is an exception, the exception otherwise. *)
Fixpoint collect {A : Type} (l : list (option A)) : option (list A) :=
  match l with
  | [] => Some []
  | None :: _ => None
  | Some a :: rest =>
      match collect rest with
      | Some rest' => Some (a :: rest')
      | None => None
      end
  end.

(** [const impulseData = data.map((point, index) => ...)]. *)
Definition impulseData (data : list DataPoint) : option (list ImpulsePoint) :=
  collect
    (map (fun '(index, point) =>
            match impulseUpTo data index with
            | Some impulse =>
                Some {| point_time := time point;
                        impulse := impulse;
                        point_velocity := velocity_or_0 point |}
            | None => None
            end)
         (combine (seq 0 (List.length data)) data)).

(** The frames of a simulation as the simulation page hands them to the
    chart. *)
Definition ofFrame (s : Viewer.FrameSample) : DataPoint :=
  {| time := Viewer.time s;
     pressure := Viewer.pressure s;
     velocity := Some (Viewer.velocity s);
     temperature := Some (Viewer.temperature s) |}.

End ImpulseChart.

(** ** The simulation page *)

Module SimulationPage.

(** The sample [i] of the mock simulation the page builds when the server
    does not know the simulation id. *)
Definition mockFrame (i : Z) : Viewer.FrameSample :=
  {| Viewer.time := IZR i * 0.1;
     Viewer.pressure := 15 * exp (- IZR i * 0.02) * Rmax 0 (1 - IZR i * 0.004);
     Viewer.velocity := 350 * exp (- IZR i * 0.015) * Rmax 0 (sin (IZR i * 0.05));
     Viewer.temperature := 300 + 2000 * exp (- IZR i * 0.03) |}.

(** [Array.from({ length: 250 }, (_, i) => ...)]. *)
Definition mockFrames : list Viewer.FrameSample := map mockFrame (JS.upto 250).

(** [Math.max(...values)]; for no values it is [-Infinity], here [None]. *)
Definition max_of (values : list R) : option R :=
  match values with
  | [] => None
  | v :: rest => Some (fold_left Rmax rest v)
  end.

(** The "Peak Pressure" of the summary:
    [Math.max(...simulation.frames.map((f) => f.pressure))]. *)
Definition peakPressure (frames : list Viewer.FrameSample) : option R :=
  max_of (map Viewer.pressure frames).

End SimulationPage.

(** ** Bounding boxes *)

Module BoundingBox.

Record BoundingBox : Type := mkBoundingBox {
  south : R;
  west : R;
  north : R;
  east : R
}.

(** [createBoundingBox].  Where the cosine of the latitude is 0 the quotient
    [lngDelta] is not a real number; what is proved below about the
    longitudes of a created box assumes a latitude strictly between -90 and
    90. *)
Definition createBoundingBox (lat lng radiusKm : R) : BoundingBox :=
  let latDelta := radiusKm / 111.32 in
  let lngDelta := radiusKm / (111.32 * cos ((lat * PI) / 180)) in
  {| south := lat - latDelta;
     west := lng - lngDelta;
     north := lat + latDelta;
     east := lng + lngDelta |}.

Definition lt (a b : R) : bool := if Rlt_dec a b then true else false.
Definition le (a b : R) : bool := if Rle_dec a b then true else false.

Definition isValidBoundingBox (bbox : BoundingBox) : bool :=
  lt (south bbox) (north bbox)
  && lt (west bbox) (east bbox)
  && le (-90) (south bbox)
  && le (north bbox) 90
  && le (-180) (west bbox)
  && le (east bbox) 180.

Definition getBoundingBoxCenter (bbox : BoundingBox) : R * R :=
  ((north bbox + south bbox) / 2, (east bbox + west bbox) / 2).

Record Size : Type := mkSize { width : R; height : R }.

Definition getBoundingBoxSize (bbox : BoundingBox) : Size :=
  {| width := east bbox - west bbox;
     height := north bbox - south bbox |}.

End BoundingBox.

(** ** Buildings on the viewer's canvas *)

Module Overlay.

(** An [OSMBuilding], with the fields the viewer reads.  A coordinate is the
    pair [[coord[0], coord[1]]]. *)
Record OSMBuilding : Type := mkBuilding {
  coordinates : list (R * R);
  tags_building : option string;
  calculatedHeight : R
}.

(** The canvas point of a coordinate, as [renderBuildings] and [renderRoads]
    compute it. *)
Definition canvasCoord (width height : R) (coord : R * R) : R * R :=
  (((fst coord + 74.006) * width) / 0.02,
   height - ((snd coord - 40.7128) * height) / 0.02).

(** [Math.floor]. *)
Definition floor (r : R) : Z := Int_part r.

(** [building.tags?.building || "yes"]: an absent or empty tag counts as
    ["yes"]. *)
Definition buildingType (building : OSMBuilding) : string :=
  match tags_building building with
  | Some tag => if String.eqb tag "" then "yes" else tag
  | None => "yes"
  end.

Definition baseColor (building : OSMBuilding) : list R :=
  let buildingType := buildingType building in
  if String.eqb buildingType "residential" then [120; 100; 80]
  else if String.eqb buildingType "commercial" then [80; 100; 120]
  else if String.eqb buildingType "industrial" then [100; 80; 80]
  else [100; 100; 100].

(** A polygon as [renderBuildings] fills it: its path, the three colour
    channels of the fill, and the centre of the fill's gradient. *)
Record Polygon : Type := mkPolygon {
  path : list (R * R);
  channels : list Z;
  centerX : R;
  centerY : R
}.

Definition renderBuildings (buildingsData : list OSMBuilding) (width height : R)
  : list Polygon :=
  flat_map
    (fun building =>
       if (List.length (coordinates building) <? 3)%nat then []
       else
         let canvasCoords := map (canvasCoord width height) (coordinates building) in
         let heightRatio :=
           Rmin (JS.or (calculatedHeight building) 10 / 100) 1 in
         [ {| path := canvasCoords;
              channels :=
                map (fun c => floor (c + heightRatio * 80)) (baseColor building);
              centerX :=
                fold_left (fun sum coord => sum + fst coord) canvasCoords 0
                / INR (List.length canvasCoords);
              centerY :=
                fold_left (fun sum coord => sum + snd coord) canvasCoords 0
                / INR (List.length canvasCoords) |} ])
    buildingsData.

End Overlay.

(** Two chart points 0.1 s apart, at 15 and 12 bar. *)
Definition chartPoints : list ImpulseChart.DataPoint :=
  [ {| ImpulseChart.time := 0; ImpulseChart.pressure := 15;
       ImpulseChart.velocity := Some 0; ImpulseChart.temperature := None |};
    {| ImpulseChart.time := 0.1; ImpulseChart.pressure := 12;
       ImpulseChart.velocity := None; ImpulseChart.temperature := None |} ].

(** The first mock building of the simulation page: a residential block,
    25 m high, whose coordinates are written latitude first. *)
Definition mockBuilding : Overlay.OSMBuilding :=
  {| Overlay.coordinates :=
       [ (40.712, -74.007); (40.7125, -74.007); (40.7125, -74.0065);
         (40.712, -74.0065); (40.712, -74.007) ];
     Overlay.tags_building := Some "residential"%string;
     Overlay.calculatedHeight := 25 |}.

(** A vector of length 50 in a one-cell velocity field. *)
Definition fastVector : Viewer.Vec2 := {| Viewer.x := 30; Viewer.y := 40 |}.

(** A supplied sample that carries values but is stamped with time 0. *)
Definition unstampedSample : Viewer.FrameSample :=
  {| Viewer.time := 0; Viewer.pressure := 0.3; Viewer.velocity := 0.2;
     Viewer.temperature := 300 |}.

(** What every event preserves: the counter is inside the sequence, the frame
    count is the initial one, and the stored frame is the one generated for the
    counter. *)
Definition inStep (frames : list Viewer.FrameSample) (total : Z)
  (st : Viewer.PlaybackState) : Prop :=
  (0 <= Viewer.currentFrame st < total)%Z
  /\ Viewer.totalFrames st = total
  /\ Viewer.simulationData st =
       Some (Viewer.generateFrameData frames (Viewer.currentFrame st)).

(** ** Basic facts about the JavaScript operators *)

Section JSFacts.

Lemma or_truthy (a b : R) : a <> 0 -> JS.or a b = a.
Proof.
  intros Ha. unfold JS.or. destruct (Req_dec_T a 0) as [E | _]; [contradiction | reflexivity].
Qed.

Lemma or_falsy (a b : R) : a = 0 -> JS.or a b = b.
Proof.
  intros Ha. unfold JS.or. destruct (Req_dec_T a 0) as [_ | N]; [reflexivity | contradiction].
Qed.

Lemma index_upto (n : nat) (i : Z) :
  (0 <= i < Z.of_nat n)%Z -> JS.index (JS.upto n) i = Some i.
Proof.
  intros [Hlo Hhi]. unfold JS.index, JS.upto.
  destruct (Z.ltb_spec i 0) as [Hneg | _]; [lia |].
  rewrite nth_error_map, nth_error_seq.
  destruct (Nat.ltb_spec (Z.to_nat i) n) as [_ | Hge]; [| lia].
  simpl. f_equal. lia.
Qed.

Lemma index_upto_inv (n : nat) (i k : Z) :
  JS.index (JS.upto n) i = Some k -> (0 <= i < Z.of_nat n)%Z /\ k = i.
Proof.
  unfold JS.index, JS.upto.
  destruct (Z.ltb_spec i 0) as [Hneg | Hpos]; [discriminate |].
  rewrite nth_error_map, nth_error_seq.
  destruct (Nat.ltb_spec (Z.to_nat i) n) as [Hlt | Hge]; simpl; [| discriminate].
  intros E. injection E as <-. lia.
Qed.

Lemma index_map {A B : Type} (f : A -> B) (l : list A) (i : Z) :
  JS.index (map f l) i = option_map f (JS.index l i).
Proof.
  unfold JS.index. destruct (i <? 0)%Z; [reflexivity |]. apply nth_error_map.
Qed.

End JSFacts.

(** ** Facts about the generated fields *)

Lemma map_const {A B : Type} (c : B) (l : list A) :
  map (fun _ => c) l = repeat c (List.length l).
Proof.
  induction l as [| a l IH]; simpl; [reflexivity | now rewrite IH].
Qed.

Section GridFacts.

Context {A : Type}.
Variable n : nat.
Variable cell : Z -> Z -> A.

Lemma cellAt_grid (i j : Z) :
  (0 <= i < Z.of_nat n)%Z -> (0 <= j < Z.of_nat n)%Z ->
  Viewer.cellAt (Viewer.grid n cell) i j = Some (cell i j).
Proof.
  intros Hi Hj. unfold Viewer.cellAt, Viewer.grid.
  rewrite index_map, (index_upto n i Hi). simpl.
  rewrite index_map, (index_upto n j Hj). reflexivity.
Qed.

Lemma cellAt_grid_inv (i j : Z) (v : A) :
  Viewer.cellAt (Viewer.grid n cell) i j = Some v ->
  (0 <= i < Z.of_nat n)%Z /\ (0 <= j < Z.of_nat n)%Z /\ v = cell i j.
Proof.
  unfold Viewer.cellAt, Viewer.grid. rewrite index_map.
  destruct (JS.index (JS.upto n) i) as [k |] eqn:Ei; simpl; [| discriminate].
  apply index_upto_inv in Ei as [Hi ->].
  rewrite index_map.
  destruct (JS.index (JS.upto n) j) as [k |] eqn:Ej; simpl; [| discriminate].
  apply index_upto_inv in Ej as [Hj ->].
  intros E. injection E as <-. auto.
Qed.

Lemma grid_const (c : A) :
  (forall i j, cell i j = c) ->
  Viewer.grid n cell = repeat (repeat c n) n.
Proof.
  intros Hc. unfold Viewer.grid.
  assert (Hlen : List.length (JS.upto n) = n).
  { unfold JS.upto. now rewrite length_map, length_seq. }
  rewrite (map_ext _ (fun _ => repeat c n)).
  - rewrite map_const. now rewrite Hlen.
  - intros i. rewrite (map_ext _ (fun _ => c)) by (intros j; apply Hc).
    rewrite map_const. now rewrite Hlen.
Qed.

End GridFacts.

(** ** Playback: ticks and seeks *)

(** C8.  A tick while playing moves the current frame index to
    [(currentFrame + 1) mod totalFrames]; from an index in [[0, totalFrames)]
    the next index is again in [[0, totalFrames)], and the frame handed to the
    renderer is the one generated for that index. *)
Theorem tick_advances_modulo (frames : list Viewer.FrameSample) (st : Viewer.PlaybackState) :
  Viewer.isPlaying st = true ->
  (0 <= Viewer.currentFrame st < Viewer.totalFrames st)%Z ->
  let st' := Viewer.runAnimation frames st in
  Viewer.currentFrame st' = ((Viewer.currentFrame st + 1) mod Viewer.totalFrames st)%Z
  /\ (0 <= Viewer.currentFrame st' < Viewer.totalFrames st')%Z
  /\ Viewer.totalFrames st' = Viewer.totalFrames st
  /\ Viewer.simulationData st' =
       Some (Viewer.generateFrameData frames (Viewer.currentFrame st')).
Proof.
  intros Hplay Hrange. unfold Viewer.runAnimation. rewrite Hplay. simpl.
  unfold JS.rem. rewrite Z.rem_mod_nonneg by lia.
  repeat split; try apply Z.mod_pos_bound; lia.
Qed.

(** One tick from frame 249 of a 250-frame sequence yields frame 0. *)
Lemma tick_advances_modulo_witness :
  Viewer.currentFrame (Viewer.runAnimation [] (playbackAt true 249 250)) = 0%Z
  /\ (0 <= Viewer.currentFrame (Viewer.runAnimation [] (playbackAt true 249 250)) < 250)%Z.
Proof.
  destruct (tick_advances_modulo [] (playbackAt true 249 250)) as (Hnext & Hin & _).
  - reflexivity.
  - simpl. lia.
  - split; [exact Hnext | exact Hin].
Defined.

(** C2, as stated, fails: [handleFrameSeek] stores the index it is given.
    Seeking to [-5] on the initial 250-frame state leaves the current frame at
    [-5], and seeking to [9999] leaves it at [9999]. *)
Lemma handleFrameSeek_does_not_clamp :
  Viewer.totalFrames (Viewer.handleFrameSeek [] (-5) (Viewer.initialState [])) = 250%Z
  /\ Viewer.currentFrame (Viewer.handleFrameSeek [] (-5) (Viewer.initialState [])) = (-5)%Z
  /\ Viewer.currentFrame (Viewer.handleFrameSeek [] 9999 (Viewer.initialState [])) = 9999%Z
  /\ ~ (0 <= Viewer.currentFrame (Viewer.handleFrameSeek [] (-5) (Viewer.initialState []))
          < Viewer.totalFrames (Viewer.handleFrameSeek [] (-5) (Viewer.initialState [])))%Z.
Proof.
  repeat split; simpl; lia.
Qed.

(** C2, amended.  [handleFrameSeek] makes its argument the current frame
    unchanged; the clamping is done by its callers.  From a current frame in
    [[0, totalFrames)] the skip-back button seeks to [max 0 (current - 10)] and
    the skip-forward button to [min (totalFrames - 1) (current + 10)], and both
    targets lie in [[0, totalFrames)]. *)
Theorem seek_clamped_by_callers (frames : list Viewer.FrameSample) (st : Viewer.PlaybackState) :
  (0 <= Viewer.currentFrame st < Viewer.totalFrames st)%Z ->
  (forall f : Z,
      Viewer.currentFrame (Viewer.handleFrameSeek frames f st) = f
      /\ Viewer.isPlaying (Viewer.handleFrameSeek frames f st) = Viewer.isPlaying st
      /\ Viewer.simulationData (Viewer.handleFrameSeek frames f st) =
           Some (Viewer.generateFrameData frames f))
  /\ Viewer.currentFrame (Viewer.skipBack frames st) =
       Z.max 0 (Viewer.currentFrame st - 10)
  /\ (0 <= Viewer.currentFrame (Viewer.skipBack frames st) < Viewer.totalFrames st)%Z
  /\ Viewer.currentFrame (Viewer.skipForward frames st) =
       Z.min (Viewer.totalFrames st - 1) (Viewer.currentFrame st + 10)
  /\ (0 <= Viewer.currentFrame (Viewer.skipForward frames st) < Viewer.totalFrames st)%Z.
Proof.
  intros Hrange. unfold Viewer.skipBack, Viewer.skipForward. simpl.
  repeat split; lia.
Qed.

(** Skip-back from frame 5 (target [-5]) yields frame 0, and skip-forward from
    frame 245 (target 255) of 250 frames yields frame 249. *)
Lemma seek_clamped_by_callers_witness :
  Viewer.currentFrame (Viewer.skipBack [] (playbackAt false 5 250)) = 0%Z
  /\ Viewer.currentFrame (Viewer.skipForward [] (playbackAt false 245 250)) = 249%Z.
Proof.
  split.
  - destruct (seek_clamped_by_callers [] (playbackAt false 5 250)) as (_ & Hb & _).
    + simpl. lia.
    + exact Hb.
  - destruct (seek_clamped_by_callers [] (playbackAt false 245 250)) as (_ & _ & _ & Hf & _).
    + simpl. lia.
    + exact Hf.
Defined.

(** ** The analytic waveforms *)

Lemma analyticPressure_nonneg (t : R) : 0 <= Viewer.analyticPressure t.
Proof.
  unfold Viewer.analyticPressure.
  pose proof (exp_pos (- t * 0.8)) as He.
  pose proof (Rmax_l 0 (1 - t * 0.3)) as Hm.
  apply Rmult_le_pos; [apply Rmult_le_pos |]; lra.
Qed.

Lemma analyticVelocity_nonneg (t : R) : 0 <= Viewer.analyticVelocity t.
Proof.
  unfold Viewer.analyticVelocity.
  pose proof (exp_pos (- t * 0.5)) as He.
  pose proof (Rmax_l 0 (sin (t * 1.5))) as Hm.
  apply Rmult_le_pos; [apply Rmult_le_pos |]; lra.
Qed.

Lemma analyticPressure_at_0 : Viewer.analyticPressure 0 = 15.
Proof.
  unfold Viewer.analyticPressure.
  replace (- 0 * 0.8) with 0 by lra. rewrite exp_0.
  replace (1 - 0 * 0.3) with 1 by lra. rewrite Rmax_right by lra. lra.
Qed.

Lemma analyticVelocity_at_0 : Viewer.analyticVelocity 0 = 0.
Proof.
  unfold Viewer.analyticVelocity.
  replace (0 * 1.5) with 0 by lra. rewrite sin_0.
  rewrite Rmax_left by lra. lra.
Qed.

Lemma analyticPressure_before_0 (t : R) :
  t < 0 ->
  Viewer.analyticPressure t = 15 * exp (- t * 0.8) * (1 - t * 0.3)
  /\ 15 < Viewer.analyticPressure t.
Proof.
  intros Ht. unfold Viewer.analyticPressure.
  rewrite Rmax_right by lra. split; [lra |].
  assert (He : 1 < exp (- t * 0.8)).
  { rewrite <- exp_0. apply exp_increasing. lra. }
  nra.
Qed.

Lemma analyticVelocity_zero_iff (t : R) :
  Viewer.analyticVelocity t = 0 <-> sin (t * 1.5) <= 0.
Proof.
  unfold Viewer.analyticVelocity.
  pose proof (exp_pos (- t * 0.5)) as He.
  destruct (Rle_dec (sin (t * 1.5)) 0) as [Hs | Hs].
  - rewrite Rmax_left by lra. split; intros; lra.
  - rewrite Rmax_right by lra. split; [| lra].
    intros H. apply Rmult_integral in H as [H | H]; [| lra].
    apply Rmult_integral in H as [H | H]; lra.
Qed.

Lemma sin_minus_4_5_pos : 0 < sin (-3 * 1.5).
Proof.
  replace (-3 * 1.5) with (- (9 / 2)) by lra. rewrite sin_neg.
  pose proof PI_4 as Hhi. pose proof PI2_3_2 as Hlo.
  assert (Hs : sin (9 / 2) < 0) by (apply sin_lt_0; lra).
  lra.
Qed.

(** C6, as stated, fails: at [t = -1] the pressure waveform is not [0], at
    [t = -3] the velocity waveform is not [0], and a supplied sample with time
    [-1] makes [generateFrameData] report that pressure. *)
Lemma waveforms_not_zero_before_0 :
  -1 < 0
  /\ Viewer.analyticPressure (-1) <> 0
  /\ Viewer.analyticVelocity (-3) <> 0
  /\ Viewer.frame_time (Viewer.generateFrameData [sampleBeforeDetonation (-1)] 0) = -1
  /\ Viewer.maxPressure (Viewer.generateFrameData [sampleBeforeDetonation (-1)] 0) <> 0.
Proof.
  assert (Hp : Viewer.analyticPressure (-1) <> 0).
  { destruct (analyticPressure_before_0 (-1)) as [_ H]; lra. }
  assert (Ht : JS.or (-1) (IZR 0 * 0.1) = -1) by (apply or_truthy; lra).
  split; [lra |]. split; [exact Hp |]. split.
  - intros H. apply analyticVelocity_zero_iff in H.
    pose proof sin_minus_4_5_pos. lra.
  - unfold Viewer.generateFrameData, JS.index_or. simpl.
    rewrite Ht. split; [reflexivity |].
    rewrite or_falsy by lra. exact Hp.
Qed.

(** C6, amended.  The waveforms have no guard for negative time.  For [t < 0]
    the pressure waveform is [15 * exp (-0.8 t) * (1 - 0.3 t)], which exceeds
    15; the velocity waveform is non-negative, and it is [0] exactly when
    [sin (1.5 t) <= 0]. *)
Theorem waveforms_before_0 (t : R) :
  t < 0 ->
  Viewer.analyticPressure t = 15 * exp (- t * 0.8) * (1 - t * 0.3)
  /\ 15 < Viewer.analyticPressure t
  /\ 0 <= Viewer.analyticVelocity t
  /\ (Viewer.analyticVelocity t = 0 <-> sin (t * 1.5) <= 0).
Proof.
  intros Ht. destruct (analyticPressure_before_0 t Ht) as [Heq Hgt].
  repeat split; try assumption.
  - apply analyticVelocity_nonneg.
  - apply analyticVelocity_zero_iff.
  - apply analyticVelocity_zero_iff.
Qed.

Lemma waveforms_before_0_witness :
  -1 < 0 /\ 15 < Viewer.analyticPressure (-1) /\ 0 <= Viewer.analyticVelocity (-1).
Proof.
  assert (Hneg : -1 < 0) by lra.
  destruct (waveforms_before_0 (-1) Hneg) as (_ & Hp & Hv & _).
  split; [exact Hneg |]. split; [exact Hp | exact Hv].
Defined.

(** ** Scalars of a generated frame *)

Lemma generateFrameData_supplied
  (frames : list Viewer.FrameSample) (idx : Z) (s : Viewer.FrameSample) :
  JS.index frames idx = Some s ->
  let fr := Viewer.generateFrameData frames idx in
  Viewer.frame_time fr = JS.or (Viewer.time s) (IZR idx * 0.1)
  /\ Viewer.maxPressure fr =
       JS.or (Viewer.pressure s * 15) (Viewer.analyticPressure (Viewer.frame_time fr))
  /\ Viewer.maxVelocity fr =
       JS.or (Viewer.velocity s * 350) (Viewer.analyticVelocity (Viewer.frame_time fr)).
Proof.
  intros Hs. unfold Viewer.generateFrameData, JS.index_or. rewrite Hs. simpl. auto.
Qed.

Lemma generateFrameData_extrapolated (frames : list Viewer.FrameSample) (idx : Z) :
  JS.index frames idx = None ->
  let fr := Viewer.generateFrameData frames idx in
  Viewer.frame_time fr = IZR idx * 0.1
  /\ Viewer.maxPressure fr = Viewer.analyticPressure (IZR idx * 0.1)
  /\ Viewer.maxVelocity fr = Viewer.analyticVelocity (IZR idx * 0.1).
Proof.
  intros Hs. unfold Viewer.generateFrameData, JS.index_or. rewrite Hs. simpl.
  assert (Ht : JS.or (IZR idx * 0.1) (IZR idx * 0.1) = IZR idx * 0.1).
  { unfold JS.or. now destruct (Req_dec_T (IZR idx * 0.1) 0). }
  rewrite Ht. rewrite !or_falsy by lra. auto.
Qed.

Lemma generateFrameData_fields (frames : list Viewer.FrameSample) (idx : Z) :
  let fr := Viewer.generateFrameData frames idx in
  Viewer.frame fr = idx
  /\ Viewer.pressureField fr =
       Viewer.grid 50 (Viewer.pressureCell (Viewer.frame_time fr) (Viewer.maxPressure fr))
  /\ Viewer.velocityField fr =
       Viewer.grid 25 (Viewer.velocityCell (Viewer.frame_time fr) (Viewer.maxVelocity fr)).
Proof. simpl. auto. Qed.

Lemma analyticPressure_pos (t : R) : t * 0.3 < 1 -> 0 < Viewer.analyticPressure t.
Proof.
  intros Ht. unfold Viewer.analyticPressure.
  pose proof (exp_pos (- t * 0.8)) as He.
  rewrite Rmax_right by lra.
  apply Rmult_lt_0_compat; [apply Rmult_lt_0_compat |]; lra.
Qed.

Lemma analyticVelocity_at_1_pos : 0 < Viewer.analyticVelocity 1.
Proof.
  pose proof (analyticVelocity_nonneg 1) as Hge.
  destruct (Req_dec_T (Viewer.analyticVelocity 1) 0) as [E | N]; [| lra].
  apply analyticVelocity_zero_iff in E.
  pose proof PI2_3_2 as Hpi.
  assert (Hs : 0 < sin (1 * 1.5)) by (apply sin_gt_0; lra).
  lra.
Qed.

(** C1 at a supplied sample that is exactly 0.  The sample exists at the
    frame index, yet its values do not take precedence: [0 * 15 || ...] and
    [0 * 350 || ...] fall through to the analytic waveforms, which at time 1
    are not 0. *)
Lemma zero_sample_falls_back :
  JS.index [zeroSample] 0 = Some zeroSample
  /\ Viewer.maxPressure (Viewer.generateFrameData [zeroSample] 0)
       <> Viewer.pressure zeroSample * 15
  /\ Viewer.maxVelocity (Viewer.generateFrameData [zeroSample] 0)
       <> Viewer.velocity zeroSample * 350.
Proof.
  assert (Hidx : JS.index [zeroSample] 0 = Some zeroSample) by reflexivity.
  destruct (generateFrameData_supplied [zeroSample] 0 zeroSample Hidx) as (Ht & Hp & Hv).
  rewrite or_truthy in Ht by (simpl; lra).
  rewrite Ht in Hp, Hv. rewrite or_falsy in Hp, Hv by (simpl; lra).
  split; [exact Hidx |]. rewrite Hp, Hv. simpl.
  pose proof (analyticPressure_pos 1) as Hpp.
  pose proof analyticVelocity_at_1_pos as Hvp.
  split; lra.
Qed.

(** ** Cells of the pressure and velocity fields *)

Lemma pressureCell_nonneg (t mp : R) (i j : Z) : 0 <= Viewer.pressureCell t mp i j.
Proof. unfold Viewer.pressureCell. apply Rmax_l. Qed.

(** Beyond the wave front, or before the wave has left the centre, a cell
    is exactly 0. *)
Lemma pressureCell_beyond_front (t mp : R) (i j : Z) :
  t * 8 < sqrt ((IZR i - 25) ^ 2 + (IZR j - 25) ^ 2) \/ t * 8 <= 0 ->
  Viewer.pressureCell t mp i j = 0.
Proof.
  intros H. unfold Viewer.pressureCell. cbv zeta.
  destruct (Rle_dec _ (t * 8)) as [Hle | Hgt];
    [destruct (Rlt_dec 0 (t * 8)) as [Hpos | Hnpos] |];
    apply Rmax_left; lra.
Qed.

Lemma pressureCell_center (t mp : R) : Viewer.pressureCell t mp 25 25 = 0.
Proof.
  unfold Viewer.pressureCell. cbv zeta.
  replace ((25 - 25) ^ 2 + (25 - 25) ^ 2) with 0 by lra. rewrite sqrt_0.
  destruct (Rle_dec 0 (t * 8)) as [Hle | Hgt];
    [destruct (Rlt_dec 0 (t * 8)) as [Hpos | Hnpos] |];
    try (apply Rmax_left; lra).
  destruct (Rlt_dec 0 (0 / (t * 8) * t / 2)) as [Hts | Hts];
    [| apply Rmax_left; lra].
  exfalso. unfold Rdiv in Hts. rewrite !Rmult_0_l in Hts. lra.
Qed.

Lemma velocityCell_still (t : R) (i j : Z) :
  Viewer.velocityCell t 0 i j = {| Viewer.x := 0; Viewer.y := 0 |}.
Proof.
  unfold Viewer.velocityCell. cbv zeta.
  destruct (Rlt_dec 0 _) as [Hd | Hd]; [| reflexivity].
  destruct (Rlt_dec _ 3) as [Hb | Hb]; f_equal; unfold Rdiv; ring.
Qed.

Lemma or_nonneg (a b : R) : 0 <= a -> 0 <= b -> 0 <= JS.or a b.
Proof. intros Ha Hb. unfold JS.or. now destruct (Req_dec_T a 0). Qed.

Lemma index_In {A : Type} (l : list A) (i : Z) (a : A) :
  JS.index l i = Some a -> In a l.
Proof.
  unfold JS.index. destruct (i <? 0)%Z; [discriminate |]. apply nth_error_In.
Qed.

Lemma grid_Forall {A : Type} (P : A -> Prop) (n : nat) (cell : Z -> Z -> A) :
  (forall i j, P (cell i j)) -> Forall (Forall P) (Viewer.grid n cell).
Proof.
  intros H. unfold Viewer.grid.
  apply Forall_map, Forall_forall. intros i _.
  apply Forall_map, Forall_forall. intros j _. apply H.
Qed.

(** C7.  When every supplied sample has non-negative pressure and velocity
    (in particular when no sample is supplied), the generated frame has
    [maxPressure >= 0], [maxVelocity >= 0], and every cell of its pressure
    field is non-negative.  This holds at every frame index, so at every
    time [t >= 0]. *)
Theorem frame_values_nonneg (frames : list Viewer.FrameSample) (idx : Z) :
  (forall s, In s frames -> 0 <= Viewer.pressure s /\ 0 <= Viewer.velocity s) ->
  let fr := Viewer.generateFrameData frames idx in
  0 <= Viewer.maxPressure fr
  /\ 0 <= Viewer.maxVelocity fr
  /\ Forall (Forall (fun p => 0 <= p)) (Viewer.pressureField fr)
  /\ (forall i j p, Viewer.cellAt (Viewer.pressureField fr) i j = Some p -> 0 <= p).
Proof.
  intros Hs fr.
  assert (Hscal : 0 <= Viewer.maxPressure fr /\ 0 <= Viewer.maxVelocity fr).
  { destruct (JS.index frames idx) as [s |] eqn:Ei.
    - destruct (generateFrameData_supplied frames idx s Ei) as (_ & Hp & Hv).
      fold fr in Hp, Hv. rewrite Hp, Hv.
      destruct (Hs s (index_In _ _ _ Ei)) as [Hps Hvs].
      split; apply or_nonneg;
        try apply analyticPressure_nonneg; try apply analyticVelocity_nonneg; lra.
    - destruct (generateFrameData_extrapolated frames idx Ei) as (_ & Hp & Hv).
      fold fr in Hp, Hv. rewrite Hp, Hv.
      split; [apply analyticPressure_nonneg | apply analyticVelocity_nonneg]. }
  destruct Hscal as [Hp Hv].
  destruct (generateFrameData_fields frames idx) as (_ & Hpf & _). fold fr in Hpf.
  repeat split; try assumption.
  - rewrite Hpf. apply grid_Forall. intros i j. apply pressureCell_nonneg.
  - intros i j p. rewrite Hpf. intros Hc.
    apply cellAt_grid_inv in Hc as (_ & _ & ->). apply pressureCell_nonneg.
Qed.

Lemma frame_values_nonneg_witness :
  0 <= Viewer.maxPressure (Viewer.generateFrameData [liveSample] 0)
  /\ 0 <= Viewer.maxVelocity (Viewer.generateFrameData [liveSample] 0).
Proof.
  destruct (frame_values_nonneg [liveSample] 0) as (Hp & Hv & _).
  - intros s [<- | []]. simpl. split; lra.
  - split; [exact Hp | exact Hv].
Defined.

(** C10.  For every time and every [maxPressure], the cell at the grid
    centre [(25, 25)] is 0: its distance from the centre is 0, so the
    normalised time at that distance is 0 and the guarded branch gives 0.
    Hence cell [(25, 25)] of every generated pressure field is 0. *)
Theorem epicenter_pressure_zero
  (t mp : R) (frames : list Viewer.FrameSample) (idx : Z) :
  Viewer.pressureCell t mp 25 25 = 0
  /\ Viewer.cellAt (Viewer.pressureField (Viewer.generateFrameData frames idx)) 25 25
       = Some 0.
Proof.
  split; [apply pressureCell_center |].
  destruct (generateFrameData_fields frames idx) as (_ & Hpf & _).
  rewrite Hpf, cellAt_grid by (simpl; lia).
  f_equal. apply pressureCell_center.
Qed.

(** ** The frame at time 0 *)

(** C4.  With no supplied frames, frame 0 has time 0, an all-zero 50x50
    pressure field, an all-zero-vector 25x25 velocity field, and
    [maxPressure] equal to the analytic pressure at time 0, which is 15. *)
Theorem frame_0_is_still :
  let fr := Viewer.generateFrameData [] 0 in
  Viewer.frame_time fr = 0
  /\ Viewer.pressureField fr = repeat (repeat 0 50) 50
  /\ Viewer.velocityField fr = repeat (repeat {| Viewer.x := 0; Viewer.y := 0 |} 25) 25
  /\ Viewer.maxPressure fr = Viewer.analyticPressure 0
  /\ Viewer.maxPressure fr = 15.
Proof.
  intros fr.
  assert (Hidx : JS.index (@nil Viewer.FrameSample) 0 = None) by reflexivity.
  destruct (generateFrameData_extrapolated [] 0 Hidx) as (Ht & Hp & Hv).
  destruct (generateFrameData_fields [] 0) as (_ & Hpf & Hvf).
  fold fr in Ht, Hp, Hv, Hpf, Hvf.
  replace (0 * 0.1) with 0 in Ht, Hp, Hv by lra.
  rewrite analyticVelocity_at_0 in Hv.
  rewrite Ht in Hpf, Hvf. rewrite Hv in Hvf.
  repeat split.
  - exact Ht.
  - rewrite Hpf. apply grid_const. intros i j.
    apply pressureCell_beyond_front. right. lra.
  - rewrite Hvf. apply grid_const. intros i j. apply velocityCell_still.
  - exact Hp.
  - rewrite Hp. apply analyticPressure_at_0.
Qed.

(** ** Numerical bounds on the pressure decay *)

Lemma exp_square_bounds (x l u l' u' : R) :
  0 <= l -> l <= exp x <= u -> l' <= l * l -> u * u <= u' ->
  l' <= exp (2 * x) <= u'.
Proof.
  intros Hl [Hlo Hhi] Hl' Hu'.
  replace (2 * x) with (x + x) by lra. rewrite exp_plus. nra.
Qed.

Ltac square_step H :=
  match type of H with
  | ?l <= exp ?x <= ?u =>
      replace_exp_arg x; apply (exp_square_bounds x l u); [lra | exact H | lra | lra]
  end
with replace_exp_arg x :=
  match goal with
  | |- _ <= exp ?y <= _ => replace y with (2 * x) by lra
  end.

Lemma exp_small_step_bounds : 0.999218750 <= exp (- (1 / 1280)) <= 0.999219360.
Proof.
  split.
  - pose proof (exp_ineq1_le (- (1 / 1280))). lra.
  - rewrite exp_Ropp.
    pose proof (exp_ineq1_le (1 / 1280)) as H.
    assert (Hpos : 0 < 1 + 1 / 1280) by lra.
    apply Rle_trans with (/ (1 + 1 / 1280)).
    + apply Rinv_le_contravar; lra.
    + apply Rmult_le_reg_l with (1 + 1 / 1280); [exact Hpos |].
      rewrite Rinv_r by lra. lra.
Qed.

(** [exp (-0.8)] to three decimals, by ten squarings of [exp (-1/1280)]. *)
Lemma exp_minus_0_8_bounds : 0.449188288 <= exp (- (4 / 5)) <= 0.449469607.
Proof.
  pose proof exp_small_step_bounds as H0.
  assert (H1 : 0.998438110 <= exp (- (1 / 640)) <= 0.998439330) by square_step H0.
  assert (H2 : 0.996878659 <= exp (- (1 / 320)) <= 0.996881096) by square_step H1.
  assert (H3 : 0.993767060 <= exp (- (1 / 160)) <= 0.993771920) by square_step H2.
  assert (H4 : 0.987572969 <= exp (- (1 / 80)) <= 0.987582629) by square_step H3.
  assert (H5 : 0.975300369 <= exp (- (1 / 40)) <= 0.975319450) by square_step H4.
  assert (H6 : 0.951210809 <= exp (- (1 / 20)) <= 0.951248030) by square_step H5.
  assert (H7 : 0.904802003 <= exp (- (1 / 10)) <= 0.904872815) by square_step H6.
  assert (H8 : 0.818666664 <= exp (- (1 / 5)) <= 0.818794812) by square_step H7.
  assert (H9 : 0.670215106 <= exp (- (2 / 5)) <= 0.670424945) by square_step H8.
  assert (H10 : 0.449188288 <= exp (- (4 / 5)) <= 0.449469607) by square_step H9.
  exact H10.
Qed.

(** ** The frame at time 1 *)

(** Inside the wave front, away from the centre, a cell holds the clamped
    Friedlander value. *)
Lemma pressureCell_inside_front (t mp : R) (i j : Z) :
  let d := sqrt ((IZR i - 25) ^ 2 + (IZR j - 25) ^ 2) in
  0 < t -> 0 < d <= t * 8 ->
  Viewer.pressureCell t mp i j =
    Rmax 0 (mp * exp (- (d / (t * 8) * t / 2)) * (1 - d / (t * 8) * t / 2)).
Proof.
  intros d Ht [Hd Hfront]. unfold Viewer.pressureCell. cbv zeta. fold d.
  assert (Hts : 0 < d / (t * 8) * t / 2).
  { apply Rdiv_lt_0_compat; [| lra].
    apply Rmult_lt_0_compat; [| exact Ht].
    apply Rdiv_lt_0_compat; lra. }
  destruct (Rle_dec d (t * 8)) as [_ | N]; [| contradiction].
  destruct (Rlt_dec 0 (t * 8)) as [_ | N]; [| lra].
  destruct (Rlt_dec 0 (d / (t * 8) * t / 2)) as [_ | N]; [| contradiction].
  reflexivity.
Qed.

(** C5.  With no supplied frames, the frame at time 1 (index 10, since the
    stride is 0.1) has [maxPressure = 15.0 * exp (-0.8) * 0.7], a value between
    4.71 and 4.72.  Its wave radius is 8: a cell of the pressure grid is not 0
    exactly when its distance [d] from the centre [(25, 25)] satisfies
    [0 < d <= 8], and it then holds [maxPressure * exp (- d / 16) * (1 - d / 16)].
    So every cell farther than 8 from the centre is exactly 0, the cell
    [(25, 33)] on the front (distance 8) is positive, and its neighbour
    [(25, 34)] (distance 9) is 0. *)
Theorem frame_at_1s :
  let fr := Viewer.generateFrameData [] 10 in
  Viewer.frame_time fr = 1
  /\ Viewer.maxPressure fr = 15.0 * exp (-0.8) * 0.7
  /\ 4.71 < Viewer.maxPressure fr < 4.72
  /\ Viewer.frame_time fr * 8 = 8
  /\ (forall i j p,
        Viewer.cellAt (Viewer.pressureField fr) i j = Some p ->
        8 < sqrt ((IZR i - 25) ^ 2 + (IZR j - 25) ^ 2) -> p = 0)
  /\ (forall i j p,
        Viewer.cellAt (Viewer.pressureField fr) i j = Some p ->
        p <> 0 -> sqrt ((IZR i - 25) ^ 2 + (IZR j - 25) ^ 2) <= 8)
  /\ (exists p, Viewer.cellAt (Viewer.pressureField fr) 25 26 = Some p /\ 0 < p)
  /\ (forall i j p,
        Viewer.cellAt (Viewer.pressureField fr) i j = Some p ->
        (p <> 0 <-> 0 < sqrt ((IZR i - 25) ^ 2 + (IZR j - 25) ^ 2) <= 8))
  /\ (forall i j p,
        Viewer.cellAt (Viewer.pressureField fr) i j = Some p ->
        0 < sqrt ((IZR i - 25) ^ 2 + (IZR j - 25) ^ 2) <= 8 ->
        0 < p
        /\ p = Viewer.maxPressure fr
               * exp (- (sqrt ((IZR i - 25) ^ 2 + (IZR j - 25) ^ 2) / 16))
               * (1 - sqrt ((IZR i - 25) ^ 2 + (IZR j - 25) ^ 2) / 16))
  /\ (exists p, Viewer.cellAt (Viewer.pressureField fr) 25 33 = Some p /\ 0 < p)
  /\ Viewer.cellAt (Viewer.pressureField fr) 25 34 = Some 0.
Proof.
  intros fr.
  assert (Hidx : JS.index (@nil Viewer.FrameSample) 10 = None) by reflexivity.
  destruct (generateFrameData_extrapolated [] 10 Hidx) as (Ht & Hp & _).
  destruct (generateFrameData_fields [] 10) as (_ & Hpf & _).
  fold fr in Ht, Hp, Hpf.
  replace (10 * 0.1) with 1 in Ht, Hp by lra.
  assert (Hmp : Viewer.maxPressure fr = 15.0 * exp (-0.8) * 0.7).
  { rewrite Hp. unfold Viewer.analyticPressure.
    replace (- (1) * 0.8) with (-0.8) by lra.
    replace (1 - 1 * 0.3) with 0.7 by lra.
    now rewrite Rmax_right by lra. }
  assert (Hbounds : 4.71 < Viewer.maxPressure fr < 4.72).
  { rewrite Hmp. replace (-0.8) with (- (4 / 5)) by lra.
    pose proof exp_minus_0_8_bounds. lra. }
  rewrite Ht in Hpf. rewrite Hpf.
  set (mp := Viewer.maxPressure fr) in *.
  assert (Hout : forall i j p,
             Viewer.cellAt (Viewer.grid 50 (Viewer.pressureCell 1 mp)) i j = Some p ->
             8 < sqrt ((IZR i - 25) ^ 2 + (IZR j - 25) ^ 2) -> p = 0).
  { intros i j p Hc Hd. apply cellAt_grid_inv in Hc as (_ & _ & ->).
    apply pressureCell_beyond_front. left. lra. }
  assert (Hin : forall i j p,
             Viewer.cellAt (Viewer.grid 50 (Viewer.pressureCell 1 mp)) i j = Some p ->
             0 < sqrt ((IZR i - 25) ^ 2 + (IZR j - 25) ^ 2) <= 8 ->
             0 < p
             /\ p = mp * exp (- (sqrt ((IZR i - 25) ^ 2 + (IZR j - 25) ^ 2) / 16))
                    * (1 - sqrt ((IZR i - 25) ^ 2 + (IZR j - 25) ^ 2) / 16)).
  { intros i j p Hc Hd. apply cellAt_grid_inv in Hc as (_ & _ & ->).
    pose proof (pressureCell_inside_front 1 mp i j) as Hcell. cbv zeta in Hcell.
    set (d := sqrt ((IZR i - 25) ^ 2 + (IZR j - 25) ^ 2)) in *.
    rewrite Hcell by lra.
    replace (d / (1 * 8) * 1 / 2) with (d / 16) by lra.
    pose proof (exp_pos (- (d / 16))) as He.
    assert (Hval : 0 < mp * exp (- (d / 16)) * (1 - d / 16)).
    { apply Rmult_lt_0_compat; [apply Rmult_lt_0_compat |]; lra. }
    rewrite Rmax_right by lra. split; [exact Hval | reflexivity]. }
  assert (Hcentre : forall i j p,
             Viewer.cellAt (Viewer.grid 50 (Viewer.pressureCell 1 mp)) i j = Some p ->
             sqrt ((IZR i - 25) ^ 2 + (IZR j - 25) ^ 2) <= 0 -> p = 0).
  { intros i j p Hc Hd. apply cellAt_grid_inv in Hc as (_ & _ & ->).
    unfold Viewer.pressureCell. cbv zeta.
    set (d := sqrt ((IZR i - 25) ^ 2 + (IZR j - 25) ^ 2)) in *.
    assert (Hd0 : d = 0) by (pose proof (sqrt_pos ((IZR i - 25) ^ 2 + (IZR j - 25) ^ 2)); fold d in H; lra).
    rewrite Hd0.
    destruct (Rle_dec 0 (1 * 8)); [| apply Rmax_left; lra].
    destruct (Rlt_dec 0 (1 * 8)); [| apply Rmax_left; lra].
    destruct (Rlt_dec 0 (0 / (1 * 8) * 1 / 2)) as [Hts | _]; [exfalso; lra |].
    apply Rmax_left; lra. }
  assert (Hd8 : sqrt ((25 - 25) ^ 2 + (33 - 25) ^ 2) = 8).
  { replace ((25 - 25) ^ 2 + (33 - 25) ^ 2) with (8 * 8) by lra.
    apply sqrt_square. lra. }
  assert (Hd9 : sqrt ((25 - 25) ^ 2 + (34 - 25) ^ 2) = 9).
  { replace ((25 - 25) ^ 2 + (34 - 25) ^ 2) with (9 * 9) by lra.
    apply sqrt_square. lra. }
  assert (Hd1 : sqrt ((25 - 25) ^ 2 + (26 - 25) ^ 2) = 1).
  { replace ((25 - 25) ^ 2 + (26 - 25) ^ 2) with 1 by lra. apply sqrt_1. }
  assert (Hcell : forall j, (0 <= j < 50)%Z ->
             Viewer.cellAt (Viewer.grid 50 (Viewer.pressureCell 1 mp)) 25 j
             = Some (Viewer.pressureCell 1 mp 25 j)).
  { intros j Hj. apply cellAt_grid; simpl; lia. }
  split; [exact Ht |]. split; [exact Hmp |]. split; [exact Hbounds |].
  split; [lra |]. split; [exact Hout |]. split; [| split; [| split; [| split; [| split]]]].
  - intros i j p Hc Hnz.
    destruct (Rle_dec (sqrt ((IZR i - 25) ^ 2 + (IZR j - 25) ^ 2)) 8) as [Hle | Hgt];
      [exact Hle | exfalso].
    apply Hnz, (Hout i j p Hc). lra.
  - eexists. split; [apply (Hcell 26%Z); lia |].
    apply (Hin 25%Z 26%Z); [apply (Hcell 26%Z); lia | rewrite Hd1; lra].
  - intros i j p Hc. split.
    + intros Hnz.
      destruct (Rlt_dec 0 (sqrt ((IZR i - 25) ^ 2 + (IZR j - 25) ^ 2))) as [Hpos | Hz];
        [| exfalso; apply Hnz, (Hcentre i j p Hc); lra].
      destruct (Rle_dec (sqrt ((IZR i - 25) ^ 2 + (IZR j - 25) ^ 2)) 8) as [Hle | Hgt];
        [split; assumption | exfalso].
      apply Hnz, (Hout i j p Hc). lra.
    + intros Hd. destruct (Hin i j p Hc Hd) as [Hpos _]. lra.
  - exact Hin.
  - eexists. split; [apply (Hcell 33%Z); lia |].
    apply (Hin 25%Z 33%Z); [apply (Hcell 33%Z); lia | rewrite Hd8; lra].
  - rewrite (Hcell 34%Z) by lia. f_equal.
    apply (Hout 25%Z 34%Z); [apply (Hcell 34%Z); lia | rewrite Hd9; lra].
Qed.

(** ** The hard cutoff at the wave front *)

(** In every generated frame, a pressure cell whose distance from the centre
    [(25, 25)] exceeds the wave radius [8 * time] is exactly 0. *)
Theorem pressure_zero_beyond_front
  (frames : list Viewer.FrameSample) (idx i j : Z) (p : R) :
  let fr := Viewer.generateFrameData frames idx in
  Viewer.cellAt (Viewer.pressureField fr) i j = Some p ->
  Viewer.frame_time fr * 8 < sqrt ((IZR i - 25) ^ 2 + (IZR j - 25) ^ 2) ->
  p = 0.
Proof.
  intros fr Hc Hd.
  destruct (generateFrameData_fields frames idx) as (_ & Hpf & _). fold fr in Hpf.
  rewrite Hpf in Hc. apply cellAt_grid_inv in Hc as (_ & _ & ->).
  apply pressureCell_beyond_front. left. exact Hd.
Qed.

(** At time 1 the corner cell [(0, 0)], about 35 units from the centre, is 0. *)
Lemma pressure_zero_beyond_front_witness :
  Viewer.cellAt (Viewer.pressureField (Viewer.generateFrameData [] 10)) 0 0 = Some 0.
Proof.
  destruct (generateFrameData_fields [] 10) as (_ & Hpf & _).
  destruct (generateFrameData_extrapolated [] 10 eq_refl) as (Ht & _).
  assert (Hc : Viewer.cellAt (Viewer.pressureField (Viewer.generateFrameData [] 10)) 0 0
               = Some (Viewer.pressureCell
                         (Viewer.frame_time (Viewer.generateFrameData [] 10))
                         (Viewer.maxPressure (Viewer.generateFrameData [] 10)) 0 0)).
  { rewrite Hpf. apply cellAt_grid; simpl; lia. }
  rewrite Hc. f_equal.
  apply (pressure_zero_beyond_front [] 10 0 0 _ Hc).
  rewrite Ht.
  replace (10 * 0.1 * 8) with (sqrt (8 * 8)) by (rewrite sqrt_square; lra).
  apply sqrt_lt_1; lra.
Defined.

(** ** Scaling laws *)

Lemma pow_third_pos (x : R) : 0 < x -> JS.pow_third x = Some (Rpower x (1 / 3)).
Proof.
  intros Hx. unfold JS.pow_third. destruct (Rlt_dec 0 x); [reflexivity | contradiction].
Qed.

Lemma pow_third_0 : JS.pow_third 0 = Some 0.
Proof.
  unfold JS.pow_third. destruct (Rlt_dec 0 0) as [H | _]; [lra |].
  destruct (Req_dec_T 0 0) as [_ | N]; [reflexivity | contradiction].
Qed.

Lemma pow_third_neg (x : R) : x < 0 -> JS.pow_third x = None.
Proof.
  intros Hx. unfold JS.pow_third. destruct (Rlt_dec 0 x) as [H | _]; [lra |].
  destruct (Req_dec_T x 0) as [E | _]; [lra | reflexivity].
Qed.

Lemma pow_third_1 : JS.pow_third 1 = Some 1.
Proof.
  rewrite pow_third_pos by lra. f_equal.
  unfold Rpower. now rewrite ln_1, Rmult_0_r, exp_0.
Qed.

Lemma tntEquivalent_TNT (mass : R) : LeafletMap.tntEquivalent mass "TNT" = mass.
Proof. reflexivity. Qed.

Lemma tntEquivalent_C4 (mass : R) : LeafletMap.tntEquivalent mass "C4" = mass * 1.34.
Proof. reflexivity. Qed.

Lemma tntEquivalent_not_TNT (mass : R) (type : string) :
  type <> "TNT"%string -> LeafletMap.tntEquivalent mass type = mass * 1.34.
Proof.
  intros H. unfold LeafletMap.tntEquivalent.
  destruct (String.eqb_spec type "TNT"); [contradiction | reflexivity].
Qed.

(** The scaled distance of an equivalent mass of 1000 kg is 1, so 1000 kg of
    TNT has a blast radius of 100 m. *)
Lemma calculateBlastRadius_reference :
  JS.pow_third (1000 / 1000) = Some 1
  /\ LeafletMap.calculateBlastRadius 1000 "TNT" = Some 100.
Proof.
  assert (H : JS.pow_third (1000 / 1000) = Some 1).
  { replace (1000 / 1000) with 1 by lra. apply pow_third_1. }
  split; [exact H |].
  unfold LeafletMap.calculateBlastRadius. rewrite tntEquivalent_TNT, H. simpl.
  f_equal. lra.
Qed.

Lemma calculateBlastRadius_cube_root (mass : R) (type : string) :
  0 < mass ->
  LeafletMap.calculateBlastRadius mass type =
    Some (Rpower (LeafletMap.tntEquivalent mass type / 1000) (1 / 3) * 100).
Proof.
  intros Hm. unfold LeafletMap.calculateBlastRadius.
  rewrite pow_third_pos; [reflexivity |].
  unfold LeafletMap.tntEquivalent. destruct (String.eqb type "TNT"); lra.
Qed.

(** C3 at the types PETN, RDX and ANFO: [calculateBlastRadius] gives every
    type other than TNT the factor 1.34, so 1000 kg of RDX counts as 1340 kg
    of TNT, not 1000 kg, and its blast radius exceeds the 100 m of 1000 kg of
    TNT. *)
Theorem non_TNT_types_get_factor_of_C4 :
  LeafletMap.tntEquivalent 1000 "PETN" = 1340
  /\ LeafletMap.tntEquivalent 1000 "RDX" = 1340
  /\ LeafletMap.tntEquivalent 1000 "ANFO" = 1340
  /\ LeafletMap.tntEquivalent 1000 "RDX" <> 1.0 * 1000
  /\ (exists r, LeafletMap.calculateBlastRadius 1000 "RDX" = Some r /\ 100 < r).
Proof.
  assert (H : 1000 * 1.34 = 1340) by lra.
  repeat split; try (rewrite tntEquivalent_not_TNT by discriminate; lra).
  exists (Rpower (LeafletMap.tntEquivalent 1000 "RDX" / 1000) (1 / 3) * 100).
  split; [apply calculateBlastRadius_cube_root; lra |].
  rewrite tntEquivalent_not_TNT by discriminate.
  assert (Hp : Rpower (1000 * 1.34 / 1000) 0 < Rpower (1000 * 1.34 / 1000) (1 / 3))
    by (apply Rpower_lt; lra).
  rewrite Rpower_O in Hp by lra. lra.
Qed.

(** C9, as stated, fails at mass 0: [renderBlastWave] replaces it by 1000 and
    scales as for 1000 kg. *)
Lemma zero_mass_becomes_1000 :
  Viewer.tntEquivalent
    (Viewer.renderBlastWave (Viewer.generateFrameData [] 0) 0 800 500) = 1000
  /\ Viewer.tntEquivalent
       (Viewer.renderBlastWave (Viewer.generateFrameData [] 0) 0 800 500) <> 0
  /\ Viewer.scaledDistance
       (Viewer.renderBlastWave (Viewer.generateFrameData [] 0) 0 800 500) = Some 1.
Proof.
  assert (H : JS.or 0 1000 = 1000) by (apply or_falsy; reflexivity).
  unfold Viewer.renderBlastWave. cbv zeta.
  cbv beta iota delta [Viewer.tntEquivalent Viewer.scaledDistance].
  rewrite H. repeat split; try lra.
  apply calculateBlastRadius_reference.
Qed.

(** C9, amended.  [renderBlastWave] scales with the mass it is given whenever
    that mass is not 0, and with 1000 when it is 0; a negative mass is not
    replaced (its cube root is then not a number).  [calculateBlastRadius]
    always scales with the mass it is given: a mass of 0 gives radius 0 and a
    negative mass gives no number. *)
Theorem mass_default_only_at_zero
  (frameData : Viewer.SimulationFrame) (mass width height : R) (type : string) :
  let scale := Viewer.renderBlastWave frameData mass width height in
  (mass <> 0 -> Viewer.tntEquivalent scale = mass)
  /\ (mass = 0 -> Viewer.tntEquivalent scale = 1000)
  /\ Viewer.scaledDistance scale = JS.pow_third (Viewer.tntEquivalent scale / 1000)
  /\ (mass < 0 -> Viewer.scaledDistance scale = None)
  /\ (LeafletMap.tntEquivalent mass type = mass
      \/ LeafletMap.tntEquivalent mass type = mass * 1.34)
  /\ LeafletMap.calculateBlastRadius 0 type = Some 0
  /\ (mass < 0 -> LeafletMap.calculateBlastRadius mass type = None).
Proof.
  unfold Viewer.renderBlastWave. cbv zeta.
  cbv beta iota delta [Viewer.tntEquivalent Viewer.scaledDistance].
  assert (Heq : forall m, LeafletMap.tntEquivalent m type = m
                          \/ LeafletMap.tntEquivalent m type = m * 1.34).
  { intros m. unfold LeafletMap.tntEquivalent. destruct (String.eqb type "TNT"); auto. }
  repeat split.
  - intros H. now apply or_truthy.
  - intros H. now apply or_falsy.
  - intros H. rewrite or_truthy by lra. apply pow_third_neg. lra.
  - apply Heq.
  - unfold LeafletMap.calculateBlastRadius.
    replace (LeafletMap.tntEquivalent 0 type / 1000) with 0
      by (destruct (Heq 0) as [-> | ->]; lra).
    rewrite pow_third_0. simpl. f_equal. lra.
  - intros H. unfold LeafletMap.calculateBlastRadius.
    rewrite pow_third_neg; [reflexivity |].
    destruct (Heq mass) as [-> | ->]; lra.
Qed.

Lemma mass_default_only_at_zero_witness :
  Viewer.tntEquivalent
    (Viewer.renderBlastWave (Viewer.generateFrameData [] 0) 500 800 500) = 500.
Proof.
  destruct (mass_default_only_at_zero (Viewer.generateFrameData [] 0) 500 800 500 "TNT")
    as (H & _).
  apply H. lra.
Defined.

(** ** The controls keep the frame counter and the displayed frame in step *)

Lemma step_keeps_inStep (frames : list Viewer.FrameSample) (total : Z)
  (st : Viewer.PlaybackState) (ev : Controls.Event) :
  Controls.sliderValue total ev = true ->
  inStep frames total st -> inStep frames total (Controls.step frames st ev).
Proof.
  intros Hev (Hcur & Htot & Hdata). unfold inStep.
  destruct ev; simpl in *.
  - auto.
  - repeat split; auto; lia.
  - unfold Viewer.runAnimation. destruct (Viewer.isPlaying st); simpl; [| auto].
    unfold JS.rem. rewrite Z.rem_mod_nonneg by lia. rewrite Htot.
    repeat split; auto; apply Z.mod_pos_bound; lia.
  - repeat split; auto; lia.
  - rewrite Htot. repeat split; auto; lia.
  - apply andb_prop in Hev as [Hlo Hhi].
    apply Z.leb_le in Hlo, Hhi. repeat split; auto; lia.
Qed.

Lemma run_keeps_inStep (frames : list Viewer.FrameSample) (total : Z)
  (evs : list Controls.Event) :
  forallb (Controls.sliderValue total) evs = true ->
  forall st, inStep frames total st -> inStep frames total (Controls.run frames evs st).
Proof.
  unfold Controls.run. induction evs as [| ev evs IH]; simpl; intros Hevs st Hst.
  - exact Hst.
  - apply andb_prop in Hevs as [Hev Hrest].
    apply IH; [exact Hrest |]. now apply step_keeps_inStep.
Qed.

(** Whatever the user does with the buttons and the slider, and however often
    the timer fires, a mounted viewer keeps its frame counter inside
    [[0, totalFrames)], never changes the number of frames, and shows the
    frame generated for the counter. *)
Theorem controls_keep_frame_in_range
  (frames : list Viewer.FrameSample) (evs : list Controls.Event) :
  let st0 := Controls.mount frames (Viewer.initialState frames) in
  forallb (Controls.sliderValue (Viewer.totalFrames st0)) evs = true ->
  let st := Controls.run frames evs st0 in
  (0 <= Viewer.currentFrame st < Viewer.totalFrames st)%Z
  /\ Viewer.totalFrames st = Z.max (Z.of_nat (List.length frames)) 250
  /\ Viewer.simulationData st =
       Some (Viewer.generateFrameData frames (Viewer.currentFrame st)).
Proof.
  intros st0 Hevs st.
  assert (H0 : inStep frames (Viewer.totalFrames st0) st0).
  { unfold inStep. simpl. repeat split; lia. }
  destruct (run_keeps_inStep frames _ evs Hevs st0 H0) as (Hcur & Htot & Hdata).
  fold st in Hcur, Htot, Hdata.
  repeat split; try rewrite Htot; auto; lia.
Qed.

(** Play, two ticks, drag the slider to the last frame, tick (wraps to 0),
    skip back, skip forward, pause. *)
Lemma controls_keep_frame_in_range_witness :
  Viewer.currentFrame
    (Controls.run []
       [Controls.PlayPause; Controls.Tick; Controls.Tick; Controls.Slide 249;
        Controls.Tick; Controls.SkipBack; Controls.SkipForward; Controls.PlayPause]
       (Controls.mount [] (Viewer.initialState []))) = 10%Z
  /\ (0 <= Viewer.currentFrame
        (Controls.run []
           [Controls.PlayPause; Controls.Tick; Controls.Tick; Controls.Slide 249;
            Controls.Tick; Controls.SkipBack; Controls.SkipForward; Controls.PlayPause]
           (Controls.mount [] (Viewer.initialState []))) < 250)%Z.
Proof.
  split; [reflexivity |].
  destruct (controls_keep_frame_in_range []
              [Controls.PlayPause; Controls.Tick; Controls.Tick; Controls.Slide 249;
               Controls.Tick; Controls.SkipBack; Controls.SkipForward; Controls.PlayPause])
    as (Hcur & Htot & _).
  - reflexivity.
  - rewrite Htot in Hcur. exact Hcur.
Defined.

(** ** Playback loops *)

Lemma ticks_S (frames : list Viewer.FrameSample) (n : nat) (st : Viewer.PlaybackState) :
  Controls.ticks frames (S n) st = Viewer.runAnimation frames (Controls.ticks frames n st).
Proof. reflexivity. Qed.

(** While playing, [n] ticks from frame [c] lead to frame
    [(c + n) mod totalFrames] and playback stays on; so [totalFrames] ticks
    lead back to the frame they started from. *)
Theorem ticks_advance_and_loop
  (frames : list Viewer.FrameSample) (st : Viewer.PlaybackState) (n : nat) :
  Viewer.isPlaying st = true ->
  (0 <= Viewer.currentFrame st < Viewer.totalFrames st)%Z ->
  Viewer.currentFrame (Controls.ticks frames n st) =
    ((Viewer.currentFrame st + Z.of_nat n) mod Viewer.totalFrames st)%Z
  /\ Viewer.isPlaying (Controls.ticks frames n st) = true
  /\ Viewer.totalFrames (Controls.ticks frames n st) = Viewer.totalFrames st
  /\ Viewer.currentFrame
       (Controls.ticks frames (Z.to_nat (Viewer.totalFrames st)) st) =
     Viewer.currentFrame st.
Proof.
  intros Hplay Hrange.
  assert (Hn : forall k,
             Viewer.currentFrame (Controls.ticks frames k st) =
               ((Viewer.currentFrame st + Z.of_nat k) mod Viewer.totalFrames st)%Z
             /\ Viewer.isPlaying (Controls.ticks frames k st) = true
             /\ Viewer.totalFrames (Controls.ticks frames k st) = Viewer.totalFrames st).
  { induction k as [| k (IHc & IHp & IHt)].
    - simpl. rewrite Z.add_0_r, Z.mod_small by lia. auto.
    - rewrite ticks_S. unfold Viewer.runAnimation. rewrite IHp. simpl.
      rewrite IHc, IHt. unfold JS.rem.
      assert (Hb := Z.mod_pos_bound (Viewer.currentFrame st + Z.of_nat k)
                      (Viewer.totalFrames st) ltac:(lia)).
      rewrite Z.rem_mod_nonneg by lia.
      rewrite Zplus_mod_idemp_l. repeat split; auto. f_equal. lia. }
  destruct (Hn n) as (Hc & Hp & Ht). repeat split; auto.
  destruct (Hn (Z.to_nat (Viewer.totalFrames st))) as (Hloop & _).
  rewrite Hloop, Z2Nat.id by lia.
  rewrite <- (Z.mul_1_l (Viewer.totalFrames st)) at 1.
  rewrite Z.mod_add by lia. apply Z.mod_small. lia.
Qed.

(** 250 ticks from frame 7 of 250 frames lead back to frame 7. *)
Lemma ticks_advance_and_loop_witness :
  Viewer.currentFrame (Controls.ticks [] 250 (playbackAt true 7 250)) = 7%Z
  /\ Viewer.currentFrame (Controls.ticks [] 3 (playbackAt true 249 250)) = 2%Z.
Proof.
  split.
  - destruct (ticks_advance_and_loop [] (playbackAt true 7 250) 0) as (_ & _ & _ & H);
      [reflexivity | simpl; lia | exact H].
  - destruct (ticks_advance_and_loop [] (playbackAt true 249 250) 3) as (H & _);
      [reflexivity | simpl; lia | exact H].
Defined.

(** ** Play/pause and the progress bar *)

(** Play/pause changes only the playing flag, and clicking it twice gives the
    state back; in particular pausing keeps the current frame. *)
Theorem handlePlayPause_toggles (st : Viewer.PlaybackState) :
  Viewer.handlePlayPause (Viewer.handlePlayPause st) = st
  /\ Viewer.isPlaying (Viewer.handlePlayPause st) = negb (Viewer.isPlaying st)
  /\ Viewer.currentFrame (Viewer.handlePlayPause st) = Viewer.currentFrame st
  /\ Viewer.simulationData (Viewer.handlePlayPause st) = Viewer.simulationData st.
Proof.
  destruct st as [playing cur total data speed].
  destruct playing; simpl; auto.
Qed.

(** With the counter in [[0, totalFrames)] and at least two frames, the
    progress bar shows a value in [[0, 100]]: 0 exactly at the first frame and
    100 exactly at the last. *)
Theorem progress_within_bar (st : Viewer.PlaybackState) :
  (2 <= Viewer.totalFrames st)%Z ->
  (0 <= Viewer.currentFrame st < Viewer.totalFrames st)%Z ->
  0 <= Controls.progress st <= 100
  /\ (Controls.progress st = 0 <-> Viewer.currentFrame st = 0%Z)
  /\ (Controls.progress st = 100 <->
        Viewer.currentFrame st = (Viewer.totalFrames st - 1)%Z).
Proof.
  intros Htot [Hlo Hhi]. unfold Controls.progress.
  set (c := Viewer.currentFrame st) in *. set (n := Viewer.totalFrames st) in *.
  assert (Hn : 1 <= IZR n - 1).
  { apply IZR_le in Htot. lra. }
  assert (Hc0 : 0 <= IZR c) by (apply IZR_le in Hlo; exact Hlo).
  assert (Hc1 : IZR c <= IZR n - 1).
  { assert (H : (c <= n - 1)%Z) by lia. apply IZR_le in H.
    rewrite minus_IZR in H. exact H. }
  assert (Hq : IZR c / (IZR n - 1) * (IZR n - 1) = IZR c) by (field; lra).
  assert (Hq0 : 0 <= IZR c / (IZR n - 1)).
  { apply Rmult_le_pos; [lra | left; apply Rinv_0_lt_compat; lra]. }
  assert (Hq1 : IZR c / (IZR n - 1) <= 1).
  { apply Rmult_le_reg_r with (IZR n - 1); [lra |]. rewrite Hq. lra. }
  split; [lra |]. split; split; intros H.
  - assert (Hz : IZR c = 0) by (rewrite <- Hq; nra).
    now apply eq_IZR in Hz.
  - rewrite H. unfold Rdiv. lra.
  - assert (Hz : IZR c = IZR (n - 1)).
    { rewrite minus_IZR, <- Hq.
      replace (IZR c / (IZR n - 1)) with 1 by lra. lra. }
    now apply eq_IZR in Hz.
  - rewrite H, minus_IZR. field. lra.
Qed.

Lemma progress_within_bar_witness :
  0 <= Controls.progress (playbackAt false 249 250) <= 100.
Proof.
  destruct (progress_within_bar (playbackAt false 249 250)) as (H & _).
  - simpl. lia.
  - simpl. lia.
  - exact H.
Defined.

(** ** Shape and bounds of the generated fields *)

Lemma index_None_iff {A : Type} (l : list A) (i : Z) :
  JS.index l i = None <-> (i < 0 \/ Z.of_nat (List.length l) <= i)%Z.
Proof.
  unfold JS.index. destruct (Z.ltb_spec i 0) as [Hneg | Hpos].
  - split; [auto | reflexivity].
  - rewrite nth_error_None. lia.
Qed.

Lemma grid_shape {A : Type} (n : nat) (cell : Z -> Z -> A) :
  List.length (Viewer.grid n cell) = n
  /\ Forall (fun row => List.length row = n) (Viewer.grid n cell).
Proof.
  assert (Hlen : List.length (JS.upto n) = n).
  { unfold JS.upto. now rewrite length_map, length_seq. }
  unfold Viewer.grid. split.
  - now rewrite length_map.
  - apply Forall_map, Forall_forall. intros i _. now rewrite length_map.
Qed.

Lemma cellAt_grid_None {A : Type} (n : nat) (cell : Z -> Z -> A) (i j : Z) :
  Viewer.cellAt (Viewer.grid n cell) i j = None <->
  ~ ((0 <= i < Z.of_nat n)%Z /\ (0 <= j < Z.of_nat n)%Z).
Proof.
  split.
  - intros Hnone [Hi Hj]. rewrite cellAt_grid in Hnone by assumption. discriminate.
  - intros Hout. destruct (Viewer.cellAt (Viewer.grid n cell) i j) as [v |] eqn:E;
      [| reflexivity].
    apply cellAt_grid_inv in E as (Hi & Hj & _). exfalso. auto.
Qed.

(** Whatever the supplied frames and the frame index, the pressure field has
    50 rows of 50 cells and the velocity field 25 rows of 25 vectors: a cell
    [(i, j)] exists exactly for [0 <= i, j < 50] (resp. [25]). *)
Theorem fields_have_fixed_shape (frames : list Viewer.FrameSample) (idx : Z) :
  let fr := Viewer.generateFrameData frames idx in
  List.length (Viewer.pressureField fr) = 50%nat
  /\ Forall (fun row => List.length row = 50%nat) (Viewer.pressureField fr)
  /\ List.length (Viewer.velocityField fr) = 25%nat
  /\ Forall (fun row => List.length row = 25%nat) (Viewer.velocityField fr)
  /\ (forall i j, Viewer.cellAt (Viewer.pressureField fr) i j = None <->
                  ~ ((0 <= i < 50)%Z /\ (0 <= j < 50)%Z))
  /\ (forall i j, Viewer.cellAt (Viewer.velocityField fr) i j = None <->
                  ~ ((0 <= i < 25)%Z /\ (0 <= j < 25)%Z)).
Proof.
  intros fr.
  destruct (generateFrameData_fields frames idx) as (_ & Hpf & Hvf).
  fold fr in Hpf, Hvf. rewrite Hpf, Hvf.
  destruct (grid_shape 50 (Viewer.pressureCell (Viewer.frame_time fr) (Viewer.maxPressure fr)))
    as [Hp1 Hp2].
  destruct (grid_shape 25 (Viewer.velocityCell (Viewer.frame_time fr) (Viewer.maxVelocity fr)))
    as [Hv1 Hv2].
  refine (conj Hp1 (conj Hp2 (conj Hv1 (conj Hv2 (conj _ _)))));
    intros i j; apply cellAt_grid_None.
Qed.

Lemma exp_neg_le_1 (a : R) : 0 <= a -> exp (- a) <= 1.
Proof.
  intros Ha. rewrite <- exp_0.
  destruct (Req_dec_T a 0) as [-> | Hne].
  - rewrite Ropp_0. lra.
  - left. apply exp_increasing. lra.
Qed.

Lemma pressureCell_le_max (t mp : R) (i j : Z) :
  0 <= mp -> Viewer.pressureCell t mp i j <= mp.
Proof.
  intros Hmp. unfold Viewer.pressureCell. cbv zeta.
  apply Rmax_lub; [exact Hmp |].
  destruct (Rle_dec _ (t * 8)) as [_ | _]; [| exact Hmp].
  destruct (Rlt_dec 0 (t * 8)) as [_ | _]; [| exact Hmp].
  match goal with |- context [Rlt_dec 0 ?ts] => set (tStar := ts) end.
  destruct (Rlt_dec 0 tStar) as [Hts | _]; [| exact Hmp].
  pose proof (exp_pos (- tStar)) as He0.
  pose proof (exp_neg_le_1 tStar ltac:(lra)) as He1.
  destruct (Rle_dec tStar 1) as [Hle | Hgt].
  - assert (H1 : mp * exp (- tStar) <= mp) by nra. nra.
  - assert (H1 : 0 <= mp * exp (- tStar)) by nra. nra.
Qed.

Lemma scalars_nonneg (frames : list Viewer.FrameSample) (idx : Z) :
  (forall s, In s frames -> 0 <= Viewer.pressure s /\ 0 <= Viewer.velocity s) ->
  0 <= Viewer.maxPressure (Viewer.generateFrameData frames idx)
  /\ 0 <= Viewer.maxVelocity (Viewer.generateFrameData frames idx).
Proof.
  intros Hs. destruct (JS.index frames idx) as [s |] eqn:Ei.
  - destruct (generateFrameData_supplied frames idx s Ei) as (_ & Hp & Hv).
    rewrite Hp, Hv. destruct (Hs s (index_In _ _ _ Ei)) as [Hps Hvs].
    split; apply or_nonneg;
      try apply analyticPressure_nonneg; try apply analyticVelocity_nonneg; lra.
  - destruct (generateFrameData_extrapolated frames idx Ei) as (_ & Hp & Hv).
    rewrite Hp, Hv.
    split; [apply analyticPressure_nonneg | apply analyticVelocity_nonneg].
Qed.

(** When the supplied samples are non-negative, no cell of a frame's
    pressure field exceeds the [maxPressure] the frame reports: every cell
    lies in [[0, maxPressure]]. *)
Theorem pressure_cells_within_max (frames : list Viewer.FrameSample) (idx : Z) :
  (forall s, In s frames -> 0 <= Viewer.pressure s /\ 0 <= Viewer.velocity s) ->
  let fr := Viewer.generateFrameData frames idx in
  forall i j p,
    Viewer.cellAt (Viewer.pressureField fr) i j = Some p ->
    0 <= p <= Viewer.maxPressure fr.
Proof.
  intros Hs fr i j p Hc.
  destruct (scalars_nonneg frames idx Hs) as [Hmp _]. fold fr in Hmp.
  destruct (generateFrameData_fields frames idx) as (_ & Hpf & _). fold fr in Hpf.
  rewrite Hpf in Hc. apply cellAt_grid_inv in Hc as (_ & _ & ->).
  split; [apply pressureCell_nonneg | now apply pressureCell_le_max].
Qed.

(** At time 1 the cell next to the centre lies between 0 and [maxPressure]. *)
Lemma pressure_cells_within_max_witness :
  exists p,
    Viewer.cellAt (Viewer.pressureField (Viewer.generateFrameData [] 10)) 25 26 = Some p
    /\ 0 <= p <= Viewer.maxPressure (Viewer.generateFrameData [] 10).
Proof.
  destruct (generateFrameData_fields [] 10) as (_ & Hpf & _).
  eexists. split.
  - rewrite Hpf. apply cellAt_grid; simpl; lia.
  - apply (pressure_cells_within_max [] 10) with (i := 25%Z) (j := 26%Z).
    + intros s [].
    + rewrite Hpf. apply cellAt_grid; simpl; lia.
Defined.

(** ** The velocity field *)

(** The grid centre [(12.5, 12.5)] is not a grid point: every cell with
    integer indices is at least [sqrt (1/2)] away from it. *)
Lemma velocity_grid_off_centre (i j : Z) :
  1 / 2 <= (IZR i - 12.5) ^ 2 + (IZR j - 12.5) ^ 2.
Proof.
  assert (H : forall k : Z, 1 / 4 <= (IZR k - 12.5) ^ 2).
  { intros k. destruct (Z_le_gt_dec k 12) as [Hle | Hgt].
    - apply IZR_le in Hle. nra.
    - assert (Hge : (13 <= k)%Z) by lia. apply IZR_le in Hge. nra. }
  pose proof (H i). pose proof (H j). lra.
Qed.

Lemma velocityCell_radial (t mv : R) (i j : Z) :
  let dx := IZR i - 12.5 in
  let dy := IZR j - 12.5 in
  let d := sqrt (dx ^ 2 + dy ^ 2) in
  let v := Viewer.velocityCell t mv i j in
  0 < d
  /\ (exists m, Rabs m <= Rabs mv
                /\ Viewer.x v = m * dx / d /\ Viewer.y v = m * dy / d
                /\ Viewer.x v ^ 2 + Viewer.y v ^ 2 = m ^ 2)
  /\ Viewer.x v * dy = Viewer.y v * dx
  /\ (0 <= mv -> 0 <= Viewer.x v * dx + Viewer.y v * dy)
  /\ (3 <= Rabs (d - t * 8) -> v = {| Viewer.x := 0; Viewer.y := 0 |}).
Proof.
  intros dx dy d v.
  pose proof (velocity_grid_off_centre i j) as Hoff. fold dx dy in Hoff.
  assert (Hd : 0 < d) by (apply sqrt_lt_R0; lra).
  assert (Hdd : d * d = dx ^ 2 + dy ^ 2) by (apply sqrt_sqrt; lra).
  set (m := if Rlt_dec (Rabs (d - t * 8)) 3
            then mv * (1 - Rabs (d - t * 8) / 3) else 0).
  assert (Hv : v = {| Viewer.x := m * dx / d; Viewer.y := m * dy / d |}).
  { unfold v, Viewer.velocityCell. cbv zeta. fold dx dy d.
    destruct (Rlt_dec 0 d) as [_ | N]; [reflexivity | contradiction]. }
  assert (Hm : Rabs m <= Rabs mv /\ (0 <= mv -> 0 <= m)).
  { unfold m. pose proof (Rabs_pos (d - t * 8)) as Ha.
    destruct (Rlt_dec (Rabs (d - t * 8)) 3) as [Hb | Hb].
    - rewrite Rabs_mult. rewrite (Rabs_right (1 - _)) by lra.
      pose proof (Rabs_pos mv). split; nra.
    - rewrite Rabs_R0. split; [apply Rabs_pos | lra]. }
  destruct Hm as [Hm1 Hm2].
  assert (Hx : Viewer.x v = m * dx / d) by now rewrite Hv.
  assert (Hy : Viewer.y v = m * dy / d) by now rewrite Hv.
  split; [exact Hd |]. split; [| split; [| split]].
  - exists m. repeat split; try assumption.
    rewrite Hx, Hy.
    replace ((m * dx / d) ^ 2 + (m * dy / d) ^ 2)
      with (m ^ 2 * (dx ^ 2 + dy ^ 2) / (d * d)) by (field; lra).
    rewrite <- Hdd. field. lra.
  - rewrite Hx, Hy. field. lra.
  - intros Hmv. specialize (Hm2 Hmv). rewrite Hx, Hy.
    replace (m * dx / d * dx + m * dy / d * dy)
      with (m * (dx ^ 2 + dy ^ 2) / d) by (field; lra).
    rewrite <- Hdd. replace (m * (d * d) / d) with (m * d) by (field; lra). nra.
  - intros Hfar. rewrite Hv. unfold m.
    destruct (Rlt_dec (Rabs (d - t * 8)) 3) as [Hb | _]; [lra |].
    f_equal; unfold Rdiv; ring.
Qed.

(** In every velocity cell the branch for distance 0 is never taken: the
    vector is [magnitude * (dx, dy) / distance].  It is parallel to the
    offset [(dx, dy)] from the centre, points outward when [maxVelocity] is
    not negative, is at most [|maxVelocity|] long, and is the zero vector when
    the cell is 3 or more away from the wave front. *)
Theorem velocity_vectors_radial_and_bounded (t mv : R) (i j : Z) :
  let dx := IZR i - 12.5 in
  let dy := IZR j - 12.5 in
  let d := sqrt (dx ^ 2 + dy ^ 2) in
  let v := Viewer.velocityCell t mv i j in
  0 < d
  /\ (exists m, Rabs m <= Rabs mv
                /\ Viewer.x v = m * dx / d /\ Viewer.y v = m * dy / d
                /\ Viewer.x v ^ 2 + Viewer.y v ^ 2 = m ^ 2)
  /\ Viewer.x v * dy = Viewer.y v * dx
  /\ (0 <= mv -> 0 <= Viewer.x v * dx + Viewer.y v * dy)
  /\ (3 <= Rabs (d - t * 8) -> v = {| Viewer.x := 0; Viewer.y := 0 |}).
Proof. exact (velocityCell_radial t mv i j). Qed.

(** ** The analytic waveforms after detonation *)

(** From time 0 on the pressure waveform stays within [[0, 15]] and the
    velocity waveform within [[0, 350]]; the pressure waveform is 0 exactly
    from [t = 10/3] on. *)
Theorem waveforms_bounded_after_0 (t : R) :
  0 <= t ->
  0 <= Viewer.analyticPressure t <= 15
  /\ 0 <= Viewer.analyticVelocity t <= 350
  /\ (Viewer.analyticPressure t = 0 <-> 10 / 3 <= t).
Proof.
  intros Ht.
  pose proof (analyticPressure_nonneg t) as Hp0.
  pose proof (analyticVelocity_nonneg t) as Hv0.
  unfold Viewer.analyticPressure, Viewer.analyticVelocity in *.
  pose proof (exp_pos (- t * 0.8)) as Hep. pose proof (exp_pos (- t * 0.5)) as Hev.
  assert (Hep1 : exp (- t * 0.8) <= 1).
  { replace (- t * 0.8) with (- (t * 0.8)) by lra. apply exp_neg_le_1. lra. }
  assert (Hev1 : exp (- t * 0.5) <= 1).
  { replace (- t * 0.5) with (- (t * 0.5)) by lra. apply exp_neg_le_1. lra. }
  assert (Hm : 0 <= Rmax 0 (1 - t * 0.3) <= 1).
  { split; [apply Rmax_l | apply Rmax_lub; lra]. }
  assert (Hs : 0 <= Rmax 0 (sin (t * 1.5)) <= 1).
  { split; [apply Rmax_l |]. apply Rmax_lub; [lra |].
    destruct (SIN_bound (t * 1.5)) as [_ H]. exact H. }
  split; [split; [exact Hp0 | nra] |]. split; [split; [exact Hv0 | nra] |].
  destruct (Rle_dec (10 / 3) t) as [Hlate | Hearly].
  - rewrite Rmax_left by lra. split; intros; lra.
  - rewrite Rmax_right by lra. split; [| lra].
    intros H. exfalso.
    assert (0 < 15.0 * exp (- t * 0.8) * (1 - t * 0.3)); [| lra].
    apply Rmult_lt_0_compat; [apply Rmult_lt_0_compat |]; lra.
Qed.

Lemma waveforms_bounded_after_0_witness :
  0 <= Viewer.analyticPressure 1 <= 15 /\ 0 <= Viewer.analyticVelocity 1 <= 350.
Proof.
  assert (H : 0 <= 1) by lra.
  destruct (waveforms_bounded_after_0 1 H) as (Hp & Hv & _).
  split; [exact Hp | exact Hv].
Defined.

(** ** Frames beyond the supplied data *)

Lemma pressureCell_no_pressure (t : R) (i j : Z) : Viewer.pressureCell t 0 i j = 0.
Proof.
  apply Rle_antisym; [apply pressureCell_le_max; lra | apply pressureCell_nonneg].
Qed.

(** A frame index outside the supplied list (negative, or at or past its
    length) is not an error: the frame's time is [0.1 * index] and its two
    scalars are the analytic waveforms at that time. *)
Theorem index_outside_frames_extrapolates (frames : list Viewer.FrameSample) (idx : Z) :
  (idx < 0 \/ Z.of_nat (List.length frames) <= idx)%Z ->
  let fr := Viewer.generateFrameData frames idx in
  Viewer.frame fr = idx
  /\ Viewer.frame_time fr = IZR idx * 0.1
  /\ Viewer.maxPressure fr = Viewer.analyticPressure (IZR idx * 0.1)
  /\ Viewer.maxVelocity fr = Viewer.analyticVelocity (IZR idx * 0.1).
Proof.
  intros Hout fr. apply index_None_iff in Hout.
  destruct (generateFrameData_extrapolated frames idx Hout) as (Ht & Hp & Hv).
  repeat split; assumption.
Qed.

Lemma index_outside_frames_extrapolates_witness :
  Viewer.frame_time (Viewer.generateFrameData [liveSample] 20) = 20 * 0.1
  /\ Viewer.maxPressure (Viewer.generateFrameData [liveSample] 20)
       = Viewer.analyticPressure (20 * 0.1).
Proof.
  destruct (index_outside_frames_extrapolates [liveSample] 20) as (_ & Ht & Hp & _).
  - right. simpl. lia.
  - split; [exact Ht | exact Hp].
Defined.

(** Without supplied data for it, a frame from index 34 on (time 3.4 s, past
    the zero of the pressure waveform at 10/3 s) reports [maxPressure = 0] and
    its whole pressure field is 0, while frame 33 still reports a positive
    [maxPressure]. *)
Theorem pressure_display_blank_from_frame_34
  (frames : list Viewer.FrameSample) (idx : Z) :
  (Z.of_nat (List.length frames) <= idx)%Z -> (34 <= idx)%Z ->
  let fr := Viewer.generateFrameData frames idx in
  Viewer.maxPressure fr = 0
  /\ Viewer.pressureField fr = repeat (repeat 0 50) 50
  /\ 0 < Viewer.maxPressure (Viewer.generateFrameData [] 33).
Proof.
  intros Hlen Hidx fr.
  assert (Hout : JS.index frames idx = None) by (apply index_None_iff; lia).
  destruct (generateFrameData_extrapolated frames idx Hout) as (_ & Hp & _).
  destruct (generateFrameData_fields frames idx) as (_ & Hpf & _).
  fold fr in Hp, Hpf.
  assert (Hlate : 10 / 3 <= IZR idx * 0.1) by (apply IZR_le in Hidx; lra).
  assert (Hzero : Viewer.maxPressure fr = 0).
  { rewrite Hp. unfold Viewer.analyticPressure. rewrite Rmax_left by lra. lra. }
  split; [exact Hzero |]. split.
  - rewrite Hpf, Hzero. apply grid_const. intros i j. apply pressureCell_no_pressure.
  - destruct (generateFrameData_extrapolated [] 33 eq_refl) as (_ & Hp33 & _).
    rewrite Hp33. apply analyticPressure_pos. lra.
Qed.

Lemma pressure_display_blank_from_frame_34_witness :
  Viewer.maxPressure (Viewer.generateFrameData [] 34) = 0
  /\ Viewer.pressureField (Viewer.generateFrameData [] 34) = repeat (repeat 0 50) 50.
Proof.
  destruct (pressure_display_blank_from_frame_34 [] 34) as (Hp & Hf & _).
  - simpl. lia.
  - lia.
  - split; [exact Hp | exact Hf].
Defined.

(** The time stamp of a supplied sample is used unless it is exactly 0: a
    sample at index [idx] whose time is 0 gives the frame the time
    [0.1 * idx] instead. *)
Theorem zero_time_stamp_is_replaced
  (frames : list Viewer.FrameSample) (idx : Z) (s : Viewer.FrameSample) :
  JS.index frames idx = Some s ->
  let fr := Viewer.generateFrameData frames idx in
  (Viewer.time s <> 0 -> Viewer.frame_time fr = Viewer.time s)
  /\ (Viewer.time s = 0 -> Viewer.frame_time fr = IZR idx * 0.1).
Proof.
  intros Hs fr. destruct (generateFrameData_supplied frames idx s Hs) as (Ht & _).
  fold fr in Ht. rewrite Ht. split; intros H.
  - now apply or_truthy.
  - now apply or_falsy.
Qed.

(** A sample stamped 0 at index 1 is shown at time 0.1. *)
Lemma zero_time_stamp_is_replaced_witness :
  Viewer.frame_time
    (Viewer.generateFrameData [liveSample; unstampedSample] 1) = 1 * 0.1.
Proof.
  destruct (zero_time_stamp_is_replaced [liveSample; unstampedSample] 1
              unstampedSample eq_refl) as (_ & H).
  apply H. reflexivity.
Defined.

(** ** Drawing the pressure field *)

Lemma in_combine_upto {A : Type} (l : list A) (s : nat) (i : Z) (a : A) :
  In (i, a) (combine (map Z.of_nat (seq s (List.length l))) l) ->
  exists k : nat, i = Z.of_nat (s + k) /\ nth_error l k = Some a.
Proof.
  revert s. induction l as [| b l IH]; simpl; intros s H; [contradiction |].
  destruct H as [H | H].
  - injection H as <- <-. exists 0%nat. split; [f_equal; lia | reflexivity].
  - apply IH in H as (k & -> & Hk). exists (S k). split; [f_equal; lia | exact Hk].
Qed.

Lemma in_indexed {A : Type} (l : list A) (i : Z) (a : A) :
  In (i, a) (Canvas.indexed l) ->
  (0 <= i < Z.of_nat (List.length l))%Z /\ JS.index l i = Some a /\ In a l.
Proof.
  intros H. apply in_combine_upto in H as (k & -> & Hk). simpl.
  assert (Hlt : (k < List.length l)%nat) by (apply nth_error_Some; congruence).
  split; [lia |]. split.
  - unfold JS.index. destruct (Z.ltb_spec (Z.of_nat k) 0); [lia |].
    now rewrite Nat2Z.id.
  - eapply nth_error_In; eauto.
Qed.

Lemma length_flat_map_guarded {A I B : Type} (keep : A -> bool) (f : I -> A -> B)
  (idxs : list I) (l : list A) :
  List.length idxs = List.length l ->
  List.length (flat_map (fun '(i, a) => if keep a then [f i a] else []) (combine idxs l))
  = List.length (filter keep l).
Proof.
  revert idxs. induction l as [| a l IH]; intros [| i idxs] Hlen; simpl in *;
    try reflexivity; try discriminate.
  injection Hlen as Hlen. rewrite length_app, (IH idxs Hlen).
  destruct (keep a); reflexivity.
Qed.

Lemma length_upto (n : nat) : List.length (JS.upto n) = n.
Proof. unfold JS.upto. now rewrite length_map, length_seq. Qed.

Lemma length_flat_map_rows {A I B : Type} (count : A -> nat) (F : I -> A -> list B)
  (idxs : list I) (l : list A) :
  (forall i a, List.length (F i a) = count a) ->
  List.length idxs = List.length l ->
  List.length (flat_map (fun '(i, a) => F i a) (combine idxs l)) = list_sum (map count l).
Proof.
  intros HF. revert idxs. induction l as [| a l IH]; intros [| i idxs] Hlen; simpl in *;
    try reflexivity; try discriminate.
  injection Hlen as Hlen. now rewrite length_app, HF, (IH idxs Hlen).
Qed.

Lemma length_filter_concat {A : Type} (keep : A -> bool) (l : list (list A)) :
  List.length (filter keep (List.concat l))
  = list_sum (map (fun row => List.length (filter keep row)) l).
Proof.
  induction l as [| row l IH]; simpl; [reflexivity |].
  now rewrite filter_app, length_app, IH.
Qed.

Lemma pressure_disc_source
  (pressureField : list (list R)) (width height : R) (d : Canvas.Disc) :
  In d (Canvas.renderPressureField pressureField width height) ->
  exists row p, In row pressureField /\ In p row /\ 0.5 < p
                /\ Canvas.radius d = Rmin (p / 15.0) 1 * 8
                /\ Canvas.opacity d = Rmin (p / 15.0) 1 * 0.8.
Proof.
  unfold Canvas.renderPressureField.
  destruct pressureField as [| row0 rest]; [intros [] |].
  cbv zeta. intros Hd.
  apply in_flat_map in Hd as ([i row] & Hrow & Hd).
  apply in_flat_map in Hd as ([j pressure] & Hp & Hd).
  apply in_indexed in Hrow as (_ & _ & Hrow).
  apply in_indexed in Hp as (_ & _ & Hp).
  destruct (Rlt_dec 0.5 pressure) as [Habove | _]; [| destruct Hd].
  destruct Hd as [<- | []]. exists row, pressure. simpl. auto.
Qed.

Lemma quiet_field_draws_no_disc
  (pressureField : list (list R)) (width height : R) :
  (forall row p, In row pressureField -> In p row -> p <= 0.5) ->
  Canvas.renderPressureField pressureField width height = [].
Proof.
  intros Hquiet.
  destruct (Canvas.renderPressureField pressureField width height) as [| d ds] eqn:E;
    [reflexivity | exfalso].
  destruct (pressure_disc_source pressureField width height d) as (row & p & Hrow & Hp & Habove & _).
  { rewrite E. now left. }
  specialize (Hquiet row p Hrow Hp). lra.
Qed.

(** [renderPressureField] draws one disc for each cell above 0.5 and none for
    the others.  Every disc has radius [8 * min (p / 15, 1)] for such a cell
    value [p], so its radius lies in [(4/15, 8]] and its opacity in
    [(0, 0.8]]; a field with no cell above 0.5, or no rows, draws nothing. *)
Theorem pressure_discs_only_above_threshold
  (pressureField : list (list R)) (width height : R) :
  let discs := Canvas.renderPressureField pressureField width height in
  let above := fun p : R => if Rlt_dec 0.5 p then true else false in
  List.length discs = List.length (filter above (List.concat pressureField))
  /\ (forall d, In d discs ->
        exists row p, In row pressureField /\ In p row /\ 0.5 < p
                      /\ Canvas.radius d = Rmin (p / 15.0) 1 * 8
                      /\ 4 / 15 < Canvas.radius d <= 8
                      /\ 0 < Canvas.opacity d <= 0.8)
  /\ ((forall row p, In row pressureField -> In p row -> p <= 0.5) -> discs = []).
Proof.
  intros discs above.
  assert (Hcount : List.length discs = List.length (filter above (List.concat pressureField))).
  { unfold discs, Canvas.renderPressureField.
    destruct pressureField as [| row0 rest]; [reflexivity |].
    cbv zeta. rewrite length_filter_concat.
    apply length_flat_map_rows; [| apply length_upto].
    intros i row. unfold Canvas.indexed.
    rewrite <- (length_flat_map_guarded above
                  (fun j pressure =>
                     {| Canvas.cx := IZR j * (width / JS.or (INR (List.length row0)) 1)
                                     + width / JS.or (INR (List.length row0)) 1 / 2;
                        Canvas.cy := IZR i * (height / INR (List.length (row0 :: rest)))
                                     + height / INR (List.length (row0 :: rest)) / 2;
                        Canvas.radius := Rmin (pressure / 15.0) 1 * 8;
                        Canvas.opacity := Rmin (pressure / 15.0) 1 * 0.8 |})
                  (JS.upto (List.length row)) row (length_upto _)).
    f_equal. apply flat_map_ext. intros [j pressure]. unfold above.
    destruct (Rlt_dec 0.5 pressure); reflexivity. }
  assert (Hin := pressure_disc_source pressureField width height). fold discs in Hin.
  split; [exact Hcount |]. split.
  - intros d Hd. destruct (Hin d Hd) as (row & p & Hrow & Hp & Habove & Hr & Ho).
    exists row, p. rewrite Hr, Ho.
    assert (Hm : 1 / 30 < Rmin (p / 15.0) 1 <= 1).
    { split; [apply Rmin_glb_lt; lra | apply Rmin_r]. }
    repeat split; try assumption; lra.
  - apply quiet_field_draws_no_disc.
Qed.

Lemma pressure_disc_of_square_field
  (pressureField : list (list R)) (width height : R) (n : nat) (d : Canvas.Disc) :
  (0 < n)%nat ->
  List.length pressureField = n ->
  Forall (fun row => List.length row = n) pressureField ->
  In d (Canvas.renderPressureField pressureField width height) ->
  exists i j p,
    Viewer.cellAt pressureField i j = Some p /\ 0.5 < p
    /\ Canvas.cx d = IZR j * (width / INR n) + width / INR n / 2
    /\ Canvas.cy d = IZR i * (height / INR n) + height / INR n / 2.
Proof.
  intros Hn Hlen Hrows Hd. unfold Canvas.renderPressureField in Hd.
  destruct pressureField as [| row0 rest]; [destruct Hd |].
  cbv zeta in Hd. rewrite Hlen in Hd.
  assert (Hrow0 : List.length row0 = n) by now inversion Hrows.
  rewrite Hrow0 in Hd.
  assert (HnR : INR n <> 0) by (apply not_0_INR; lia).
  rewrite (or_truthy _ _ HnR) in Hd.
  apply in_flat_map in Hd as ([i row] & Hrow & Hd).
  apply in_flat_map in Hd as ([j pressure] & Hp & Hd).
  apply in_indexed in Hrow as (_ & Hrow & _).
  apply in_indexed in Hp as (_ & Hp & _).
  destruct (Rlt_dec 0.5 pressure) as [Habove | _]; [| destruct Hd].
  destruct Hd as [<- | []]. exists i, j, pressure. simpl.
  unfold Viewer.cellAt. rewrite Hrow. auto.
Qed.

(** The discs drawn for a generated frame on a canvas of positive size: each
    belongs to a cell [(i, j)] above 0.5 that the wave front has reached, is
    centred in that cell's rectangle, and so lies inside the canvas.  With
    non-negative samples, a frame whose [maxPressure] is at most 0.5 draws no
    disc at all. *)
Theorem pressure_discs_of_generated_frame
  (frames : list Viewer.FrameSample) (idx : Z) (width height : R) :
  0 < width -> 0 < height ->
  let fr := Viewer.generateFrameData frames idx in
  let discs := Canvas.renderPressureField (Viewer.pressureField fr) width height in
  (forall d, In d discs ->
     exists i j p,
       Viewer.cellAt (Viewer.pressureField fr) i j = Some p /\ 0.5 < p
       /\ sqrt ((IZR i - 25) ^ 2 + (IZR j - 25) ^ 2) <= Viewer.frame_time fr * 8
       /\ Canvas.cx d = (IZR j + 1 / 2) * (width / 50)
       /\ Canvas.cy d = (IZR i + 1 / 2) * (height / 50)
       /\ 0 < Canvas.cx d < width /\ 0 < Canvas.cy d < height)
  /\ ((forall s, In s frames -> 0 <= Viewer.pressure s /\ 0 <= Viewer.velocity s) ->
      Viewer.maxPressure fr <= 0.5 -> discs = []).
Proof.
  intros Hw Hh fr discs.
  destruct (generateFrameData_fields frames idx) as (_ & Hpf & _). fold fr in Hpf.
  destruct (grid_shape 50 (Viewer.pressureCell (Viewer.frame_time fr) (Viewer.maxPressure fr)))
    as [Hlen Hrows]. rewrite <- Hpf in Hlen, Hrows.
  split.
  - intros d Hd.
    destruct (pressure_disc_of_square_field _ width height 50 d ltac:(lia) Hlen Hrows Hd)
      as (i & j & p & Hc & Habove & Hx & Hy).
    exists i, j, p. replace (INR 50) with 50 in Hx, Hy by (simpl; lra).
    assert (Hcell := Hc). rewrite Hpf in Hcell.
    apply cellAt_grid_inv in Hcell as (Hi & Hj & Hp).
    assert (HiR : 0 <= IZR i <= 49) by (split; apply IZR_le; lia).
    assert (HjR : 0 <= IZR j <= 49) by (split; apply IZR_le; lia).
    split; [exact Hc |]. split; [exact Habove |]. split.
    + destruct (Rle_dec (sqrt ((IZR i - 25) ^ 2 + (IZR j - 25) ^ 2))
                  (Viewer.frame_time fr * 8)) as [Hin | Hout]; [exact Hin | exfalso].
      rewrite (pressureCell_beyond_front _ _ i j) in Hp by (left; lra). lra.
    + rewrite Hx, Hy. repeat split; try lra; nra.
  - intros Hs Hquiet.
    apply (quiet_field_draws_no_disc (Viewer.pressureField fr)).
    intros row p Hrow Hp.
    destruct (In_nth_error _ _ Hrow) as [a Ha]. destruct (In_nth_error _ _ Hp) as [b Hb].
    assert (Hc : Viewer.cellAt (Viewer.pressureField fr) (Z.of_nat a) (Z.of_nat b) = Some p).
    { unfold Viewer.cellAt, JS.index.
      destruct (Z.ltb_spec (Z.of_nat a) 0); [lia |]. rewrite Nat2Z.id, Ha.
      destruct (Z.ltb_spec (Z.of_nat b) 0); [lia |]. now rewrite Nat2Z.id. }
    destruct (scalars_nonneg frames idx Hs) as [Hmp _]. fold fr in Hmp.
    rewrite Hpf in Hc. apply cellAt_grid_inv in Hc as (_ & _ & ->).
    pose proof (pressureCell_le_max (Viewer.frame_time fr) _ (Z.of_nat a) (Z.of_nat b) Hmp).
    lra.
Qed.

(** ** Drawing the velocity field *)

Lemma velocityCell_length (t mv : R) (i j : Z) :
  let v := Viewer.velocityCell t mv i j in
  sqrt (Viewer.x v ^ 2 + Viewer.y v ^ 2) <= Rabs mv
  /\ (3 <= Rabs (sqrt ((IZR i - 12.5) ^ 2 + (IZR j - 12.5) ^ 2) - t * 8) ->
      sqrt (Viewer.x v ^ 2 + Viewer.y v ^ 2) = 0).
Proof.
  intros v.
  destruct (velocityCell_radial t mv i j) as (_ & (m & Hm & _ & _ & Hsq) & _ & _ & Hfar).
  fold v in Hsq, Hfar. split.
  - rewrite Hsq. replace (m ^ 2) with (Rsqr m) by (unfold Rsqr; ring).
    rewrite sqrt_Rsqr_abs. exact Hm.
  - intros H. rewrite (Hfar H). simpl.
    replace (0 * (0 * 1) + 0 * (0 * 1)) with 0 by ring. apply sqrt_0.
Qed.

Lemma velocity_arrow_source
  (velocityField : list (list Viewer.Vec2)) (width height : R) (a : Canvas.Arrow) :
  In a (Canvas.renderVelocityField velocityField width height) ->
  exists i j v,
    Viewer.cellAt velocityField i j = Some v
    /\ 20 < sqrt (Viewer.x v ^ 2 + Viewer.y v ^ 2)
    /\ Canvas.x0 a
       = IZR j * (width / JS.or (INR (List.length (hd [] velocityField))) 1)
         + width / JS.or (INR (List.length (hd [] velocityField))) 1 / 2
    /\ Canvas.y0 a
       = IZR i * (height / INR (List.length velocityField))
         + height / INR (List.length velocityField) / 2
    /\ Canvas.endX a
       = Canvas.x0 a
         + Viewer.x v / sqrt (Viewer.x v ^ 2 + Viewer.y v ^ 2)
           * (Rmin (sqrt (Viewer.x v ^ 2 + Viewer.y v ^ 2) / 150) 1 * 20)
    /\ Canvas.endY a
       = Canvas.y0 a
         - Viewer.y v / sqrt (Viewer.x v ^ 2 + Viewer.y v ^ 2)
           * (Rmin (sqrt (Viewer.x v ^ 2 + Viewer.y v ^ 2) / 150) 1 * 20).
Proof.
  unfold Canvas.renderVelocityField.
  destruct velocityField as [| row0 rest]; [intros [] |].
  cbv zeta. intros Ha.
  apply in_flat_map in Ha as ([i row] & Hrow & Ha).
  apply in_flat_map in Ha as ([j v] & Hv & Ha).
  apply in_indexed in Hrow as (_ & Hrow & _).
  apply in_indexed in Hv as (_ & Hv & _).
  destruct (Rlt_dec 20 _) as [Hlong | _]; [| destruct Ha].
  destruct Ha as [<- | []]. exists i, j, v.
  cbn [Canvas.x0 Canvas.y0 Canvas.endX Canvas.endY hd].
  unfold Viewer.cellAt. rewrite Hrow.
  repeat split; try assumption; reflexivity.
Qed.

(** [renderVelocityField] draws an arrow only for a vector longer than 20.
    The shaft starts at the centre of the rectangle of the vector's cell
    [(i, j)] and ends at that point moved by [length * v / |v|] (the vertical
    component subtracted, since the canvas' vertical axis points down), where
    [length = 20 * min (|v| / 150, 1)] lies in [(8/3, 20]]: the shaft points
    the way the vector does and is [length] long. *)
Theorem velocity_arrows_only_for_fast_cells
  (velocityField : list (list Viewer.Vec2)) (width height : R) (a : Canvas.Arrow) :
  In a (Canvas.renderVelocityField velocityField width height) ->
  let cellWidth := width / JS.or (INR (List.length (hd [] velocityField))) 1 in
  let cellHeight := height / INR (List.length velocityField) in
  exists i j v speed,
    Viewer.cellAt velocityField i j = Some v
    /\ speed = sqrt (Viewer.x v ^ 2 + Viewer.y v ^ 2) /\ 20 < speed
    /\ Canvas.x0 a = IZR j * cellWidth + cellWidth / 2
    /\ Canvas.y0 a = IZR i * cellHeight + cellHeight / 2
    /\ Canvas.endX a = Canvas.x0 a + Viewer.x v / speed * (Rmin (speed / 150) 1 * 20)
    /\ Canvas.endY a = Canvas.y0 a - Viewer.y v / speed * (Rmin (speed / 150) 1 * 20)
    /\ (Canvas.endX a - Canvas.x0 a) ^ 2 + (Canvas.endY a - Canvas.y0 a) ^ 2
       = (Rmin (speed / 150) 1 * 20) ^ 2
    /\ 8 / 3 < Rmin (speed / 150) 1 * 20 <= 20.
Proof.
  intros Ha cellWidth cellHeight.
  destruct (velocity_arrow_source _ _ _ _ Ha) as (i & j & v & Hc & Hlong & Hx0 & Hy0 & Hx & Hy).
  exists i, j, v, (sqrt (Viewer.x v ^ 2 + Viewer.y v ^ 2)).
  set (speed := sqrt (Viewer.x v ^ 2 + Viewer.y v ^ 2)) in *.
  assert (Hsq : speed * speed = Viewer.x v ^ 2 + Viewer.y v ^ 2).
  { apply sqrt_sqrt. nra. }
  assert (Hmin : 2 / 15 < Rmin (speed / 150) 1 <= 1).
  { split; [apply Rmin_glb_lt; lra | apply Rmin_r]. }
  split; [exact Hc |]. split; [reflexivity |]. split; [exact Hlong |].
  split; [exact Hx0 |]. split; [exact Hy0 |]. split; [exact Hx |]. split; [exact Hy |].
  split; [| lra].
  rewrite Hx, Hy.
  replace ((Canvas.x0 a + Viewer.x v / speed * (Rmin (speed / 150) 1 * 20) - Canvas.x0 a) ^ 2
           + (Canvas.y0 a - Viewer.y v / speed * (Rmin (speed / 150) 1 * 20) - Canvas.y0 a) ^ 2)
    with ((Viewer.x v ^ 2 + Viewer.y v ^ 2) / (speed * speed)
          * (Rmin (speed / 150) 1 * 20) ^ 2) by (field; lra).
  rewrite <- Hsq. field. lra.
Qed.

(** A one-cell field with the vector (30, 40) on a 100 x 100 canvas: the
    arrow starts at the centre (50, 50) and ends at (54, 50 - 16/3), 20/3
    further along the vector. *)
Lemma velocity_arrows_only_for_fast_cells_witness :
  exists a,
    In a (Canvas.renderVelocityField [[fastVector]] 100 100)
    /\ Canvas.x0 a = 50 /\ Canvas.y0 a = 50
    /\ Canvas.endX a = 54 /\ Canvas.endY a = 50 - 16 / 3.
Proof.
  assert (Hspeed : sqrt (30 ^ 2 + 40 ^ 2) = 50).
  { replace (30 ^ 2 + 40 ^ 2) with (50 * 50) by lra. apply sqrt_square. lra. }
  assert (Hin : exists a, In a (Canvas.renderVelocityField [[fastVector]] 100 100)).
  { unfold Canvas.renderVelocityField, Canvas.indexed, JS.upto, fastVector.
    cbn [flat_map combine map seq List.length app Viewer.x Viewer.y].
    rewrite Hspeed. destruct (Rlt_dec 20 50) as [_ | N]; [| exfalso; lra].
    eexists. left. reflexivity. }
  destruct Hin as [a Ha]. exists a. split; [exact Ha |].
  destruct (velocity_arrows_only_for_fast_cells [[fastVector]] 100 100 a Ha)
    as (i & j & v & speed & Hc & Hs & _ & Hx0 & Hy0 & Hx & Hy & _).
  assert (Hij : i = 0%Z /\ j = 0%Z /\ v = fastVector).
  { unfold Viewer.cellAt, JS.index in Hc.
    destruct (i <? 0)%Z eqn:Ei0; [discriminate |].
    destruct (Z.to_nat i) as [| n] eqn:Ei; [| destruct n; discriminate].
    cbn [nth_error] in Hc.
    destruct (j <? 0)%Z eqn:Ej0; [discriminate |].
    destruct (Z.to_nat j) as [| m] eqn:Ej; [| destruct m; discriminate].
    cbn [nth_error] in Hc. injection Hc as <-.
    apply Z.ltb_ge in Ei0, Ej0. repeat split; lia. }
  destruct Hij as (-> & -> & ->).
  cbn [hd List.length INR] in Hx0, Hy0.
  rewrite or_truthy in Hx0 by lra.
  cbn [fastVector Viewer.x Viewer.y] in Hs, Hx, Hy.
  rewrite Hspeed in Hs. subst speed.
  assert (Hmin : Rmin (50 / 150) 1 = 1 / 3) by (rewrite Rmin_left; lra).
  rewrite Hmin in Hx, Hy.
  assert (Hx0' : Canvas.x0 a = 50) by lra.
  assert (Hy0' : Canvas.y0 a = 50) by lra.
  repeat split; lra.
Defined.

Lemma velocity_arrow_of_square_field
  (velocityField : list (list Viewer.Vec2)) (width height : R) (n : nat)
  (a : Canvas.Arrow) :
  (0 < n)%nat ->
  List.length velocityField = n ->
  Forall (fun row => List.length row = n) velocityField ->
  In a (Canvas.renderVelocityField velocityField width height) ->
  exists i j v,
    Viewer.cellAt velocityField i j = Some v
    /\ 20 < sqrt (Viewer.x v ^ 2 + Viewer.y v ^ 2)
    /\ Canvas.x0 a = IZR j * (width / INR n) + width / INR n / 2
    /\ Canvas.y0 a = IZR i * (height / INR n) + height / INR n / 2
    /\ Canvas.endX a
       = Canvas.x0 a
         + Viewer.x v / sqrt (Viewer.x v ^ 2 + Viewer.y v ^ 2)
           * (Rmin (sqrt (Viewer.x v ^ 2 + Viewer.y v ^ 2) / 150) 1 * 20)
    /\ Canvas.endY a
       = Canvas.y0 a
         - Viewer.y v / sqrt (Viewer.x v ^ 2 + Viewer.y v ^ 2)
           * (Rmin (sqrt (Viewer.x v ^ 2 + Viewer.y v ^ 2) / 150) 1 * 20).
Proof.
  intros Hn Hlen Hrows Ha.
  destruct (velocity_arrow_source _ _ _ _ Ha) as (i & j & v & Hc & Hlong & Hx0 & Hy0 & Hx & Hy).
  assert (Hrow0 : List.length (hd [] velocityField) = n).
  { destruct velocityField as [| row0 rest]; [simpl in Hlen; lia |].
    now inversion Hrows. }
  rewrite Hrow0, Hlen in *.
  rewrite or_truthy in Hx0 by (apply not_0_INR; lia).
  exists i, j, v. auto 10.
Qed.

(** The arrows drawn for a generated frame: none when [|maxVelocity|] is at
    most 20.  Otherwise every arrow belongs to one cell [(i, j)] of the 25x25
    grid that lies less than 3 away from the wave front [8 * time]: the arrow
    starts at the centre of that cell's rectangle and is drawn from that
    cell's vector. *)
Theorem velocity_arrows_of_generated_frame
  (frames : list Viewer.FrameSample) (idx : Z) (width height : R) :
  let fr := Viewer.generateFrameData frames idx in
  let arrows := Canvas.renderVelocityField (Viewer.velocityField fr) width height in
  (Rabs (Viewer.maxVelocity fr) <= 20 -> arrows = [])
  /\ (forall a, In a arrows ->
        20 < Rabs (Viewer.maxVelocity fr)
        /\ exists i j v speed,
             (0 <= i < 25)%Z /\ (0 <= j < 25)%Z
             /\ Rabs (sqrt ((IZR i - 12.5) ^ 2 + (IZR j - 12.5) ^ 2)
                      - Viewer.frame_time fr * 8) < 3
             /\ Viewer.cellAt (Viewer.velocityField fr) i j = Some v
             /\ v = Viewer.velocityCell (Viewer.frame_time fr) (Viewer.maxVelocity fr) i j
             /\ speed = sqrt (Viewer.x v ^ 2 + Viewer.y v ^ 2) /\ 20 < speed
             /\ Canvas.x0 a = (IZR j + 1 / 2) * (width / 25)
             /\ Canvas.y0 a = (IZR i + 1 / 2) * (height / 25)
             /\ Canvas.endX a
                = Canvas.x0 a + Viewer.x v / speed * (Rmin (speed / 150) 1 * 20)
             /\ Canvas.endY a
                = Canvas.y0 a - Viewer.y v / speed * (Rmin (speed / 150) 1 * 20)).
Proof.
  intros fr arrows.
  destruct (generateFrameData_fields frames idx) as (_ & _ & Hvf). fold fr in Hvf.
  destruct (grid_shape 25 (Viewer.velocityCell (Viewer.frame_time fr) (Viewer.maxVelocity fr)))
    as [Hlen Hrows]. rewrite <- Hvf in Hlen, Hrows.
  assert (Hsrc : forall a, In a arrows ->
            20 < Rabs (Viewer.maxVelocity fr)
            /\ exists i j v speed,
                 (0 <= i < 25)%Z /\ (0 <= j < 25)%Z
                 /\ Rabs (sqrt ((IZR i - 12.5) ^ 2 + (IZR j - 12.5) ^ 2)
                          - Viewer.frame_time fr * 8) < 3
                 /\ Viewer.cellAt (Viewer.velocityField fr) i j = Some v
                 /\ v = Viewer.velocityCell (Viewer.frame_time fr)
                          (Viewer.maxVelocity fr) i j
                 /\ speed = sqrt (Viewer.x v ^ 2 + Viewer.y v ^ 2) /\ 20 < speed
                 /\ Canvas.x0 a = (IZR j + 1 / 2) * (width / 25)
                 /\ Canvas.y0 a = (IZR i + 1 / 2) * (height / 25)
                 /\ Canvas.endX a
                    = Canvas.x0 a + Viewer.x v / speed * (Rmin (speed / 150) 1 * 20)
                 /\ Canvas.endY a
                    = Canvas.y0 a - Viewer.y v / speed * (Rmin (speed / 150) 1 * 20)).
  { intros a Ha.
    destruct (velocity_arrow_of_square_field _ width height 25 a ltac:(lia) Hlen Hrows Ha)
      as (i & j & v & Hc & Hlong & Hx0 & Hy0 & Hx & Hy).
    replace (INR 25) with 25 in Hx0, Hy0 by (simpl; lra).
    assert (Hcell := Hc). rewrite Hvf in Hcell.
    apply cellAt_grid_inv in Hcell as (Hi & Hj & Hv).
    destruct (velocityCell_length (Viewer.frame_time fr) (Viewer.maxVelocity fr) i j)
      as [Hle Hfar]. rewrite <- Hv in Hle, Hfar.
    split; [lra |].
    exists i, j, v, (sqrt (Viewer.x v ^ 2 + Viewer.y v ^ 2)).
    split; [exact Hi |]. split; [exact Hj |]. split.
    { destruct (Rlt_dec (Rabs (sqrt ((IZR i - 12.5) ^ 2 + (IZR j - 12.5) ^ 2)
                               - Viewer.frame_time fr * 8)) 3) as [Hb | Hb];
        [exact Hb | exfalso].
      rewrite Hfar in Hlong by lra. lra. }
    split; [exact Hc |]. split; [exact Hv |]. split; [reflexivity |].
    split; [exact Hlong |]. split; [lra |]. split; [lra |].
    split; [exact Hx | exact Hy]. }
  split; [| exact Hsrc].
  intros Hslow. destruct arrows as [| a rest] eqn:E; [reflexivity | exfalso].
  destruct (Hsrc a (or_introl eq_refl)) as [Hfast _]. lra.
Qed.

Lemma pressure_discs_of_generated_frame_witness :
  Canvas.renderPressureField
    (Viewer.pressureField (Viewer.generateFrameData [] 34)) 800 500 = [].
Proof.
  destruct (pressure_discs_of_generated_frame [] 34 800 500) as [_ Hquiet];
    [lra | lra |].
  apply Hquiet.
  - intros s [].
  - destruct (generateFrameData_extrapolated [] 34 eq_refl) as (_ & Hp & _).
    rewrite Hp. unfold Viewer.analyticPressure. rewrite Rmax_left by lra. lra.
Defined.

(** ** Drawing the explosion centre *)

(** At every time the explosion centre is drawn as three concentric discs at
    the middle of the canvas, nested in this order: the glow with radius in
    [[12, 20]], the pulsing disc with radius in [[4, 10]], and the core of
    radius 4; the opacities of glow and disc stay within [[0.36, 0.6]] and
    [[0.4, 1]]. *)
Theorem explosion_centre_discs_nested (width height time : R) :
  exists glow pulse core,
    Canvas.renderExplosionCenter width height time = [glow; pulse; core]
    /\ (forall d, In d [glow; pulse; core] ->
          Canvas.cx d = width / 2 /\ Canvas.cy d = height / 2)
    /\ Canvas.radius core = 4
    /\ Canvas.radius core <= Canvas.radius pulse <= 10
    /\ 12 <= Canvas.radius glow <= 20
    /\ 0.4 <= Canvas.opacity pulse <= 1
    /\ 0.36 <= Canvas.opacity glow <= 0.6.
Proof.
  unfold Canvas.renderExplosionCenter. cbv zeta.
  destruct (SIN_bound (time * 3)) as [Hp1 Hp2].
  destruct (SIN_bound (time * 5)) as [Hg1 Hg2].
  do 3 eexists. split; [reflexivity |]. split.
  - intros d [<- | [<- | [<- | []]]]; split; reflexivity.
  - cbn [Canvas.radius Canvas.opacity]. repeat split; lra.
Qed.

(** ** Drawing the pressure rings *)

Lemma blastRings_In (frameData : Viewer.SimulationFrame)
  (explosiveMass width height : R) (r : Canvas.Ring) :
  In r (Canvas.renderBlastWave frameData explosiveMass width height) <->
  exists maxRadius currentRadius i,
    Viewer.maxRadius (Viewer.renderBlastWave frameData explosiveMass width height)
      = Some maxRadius
    /\ Viewer.currentRadius (Viewer.renderBlastWave frameData explosiveMass width height)
       = Some currentRadius
    /\ (0 <= i <= 3)%Z
    /\ 0 < currentRadius - IZR i * 15
    /\ r = {| Canvas.ringIndex := i;
              Canvas.waveRadius := currentRadius - IZR i * 15;
              Canvas.alpha :=
                Rmax 0 (Viewer.maxPressure frameData / 15.0
                        * (1 - (currentRadius - IZR i * 15) / maxRadius)
                        - IZR i * 0.15);
              Canvas.lineWidth := 4 - IZR i |}.
Proof.
  unfold Canvas.renderBlastWave. cbv zeta.
  destruct (Viewer.maxRadius _) as [maxR |];
    [| split; [intros [] | intros (m & c & i & H & _); discriminate]].
  destruct (Viewer.currentRadius _) as [curR |];
    [| split; [intros [] | intros (m & c & i & _ & H & _); discriminate]].
  rewrite in_flat_map. split.
  - intros (i & Hi & Hr). exists maxR, curR, i.
    assert (Hrange : (0 <= i <= 3)%Z).
    { unfold JS.upto in Hi. apply in_map_iff in Hi as (k & <- & Hk).
      apply in_seq in Hk. lia. }
    destruct (Rlt_dec 0 (curR - IZR i * 15)) as [Hpos | _]; [| destruct Hr].
    destruct Hr as [<- | []]. auto.
  - intros (m & c & i & Hm & Hc & Hi & Hpos & ->).
    injection Hm as <-. injection Hc as <-. exists i. split.
    + unfold JS.upto. apply in_map_iff. exists (Z.to_nat i).
      split; [lia | apply in_seq; lia].
    + destruct (Rlt_dec 0 (curR - IZR i * 15)) as [_ | N]; [now left | contradiction].
Qed.

(** [renderBlastWave] draws at most four rings.  A drawn ring has an index in
    [[0, 3]], a positive radius, an alpha that is not negative and a stroke
    width in [[1, 4]]; the rings are 15 apart, and when ring [i] is drawn so
    is every ring before it.  A negative mass draws no ring. *)
Theorem blast_rings_nested
  (frameData : Viewer.SimulationFrame) (explosiveMass width height : R) :
  let rings := Canvas.renderBlastWave frameData explosiveMass width height in
  (List.length rings <= 4)%nat
  /\ (forall r, In r rings ->
        (0 <= Canvas.ringIndex r <= 3)%Z
        /\ 0 < Canvas.waveRadius r /\ 0 <= Canvas.alpha r
        /\ 1 <= Canvas.lineWidth r <= 4
        /\ forall k, (0 <= k <= Canvas.ringIndex r)%Z ->
             exists r', In r' rings /\ Canvas.ringIndex r' = k
                        /\ Canvas.waveRadius r'
                           = Canvas.waveRadius r + IZR (Canvas.ringIndex r - k) * 15)
  /\ (explosiveMass < 0 -> rings = []).
Proof.
  intros rings. split; [| split].
  - unfold rings, Canvas.renderBlastWave. cbv zeta.
    destruct (Viewer.maxRadius _); [| simpl; lia].
    destruct (Viewer.currentRadius _); [| simpl; lia].
    cbn [JS.upto seq map flat_map].
    repeat (destruct (Rlt_dec 0 _)); simpl; lia.
  - intros r Hr. apply blastRings_In in Hr as (m & c & i & Hm & Hc & Hi & Hpos & ->).
    cbn [Canvas.ringIndex Canvas.waveRadius Canvas.alpha Canvas.lineWidth].
    assert (HiR : 0 <= IZR i <= 3) by (split; apply IZR_le; lia).
    split; [exact Hi |]. split; [exact Hpos |]. split; [apply Rmax_l |].
    split; [lra |].
    intros k Hk.
    assert (HkR : 0 <= IZR k <= IZR i) by (split; apply IZR_le; lia).
    eexists. split.
    + apply blastRings_In. exists m, c, k.
      split; [exact Hm |]. split; [exact Hc |]. split; [lia |]. split; [lra |].
      reflexivity.
    + cbn [Canvas.ringIndex Canvas.waveRadius]. split; [reflexivity |].
      rewrite minus_IZR. lra.
  - intros Hneg. destruct rings as [| r rest] eqn:E; [reflexivity | exfalso].
    assert (Hr : In r rings) by (rewrite E; now left).
    apply blastRings_In in Hr as (m & c & i & Hm & _).
    unfold Viewer.renderBlastWave in Hm. cbv zeta in Hm.
    cbn [Viewer.maxRadius] in Hm.
    rewrite or_truthy in Hm by lra.
    rewrite pow_third_neg in Hm by lra. discriminate.
Qed.

(** The rings appear only once the wave has started: at a frame time that is
    not positive, on a canvas whose sides are not negative, no ring is
    drawn. *)
Theorem no_rings_before_the_wave_starts
  (frameData : Viewer.SimulationFrame) (explosiveMass width height : R) :
  Viewer.frame_time frameData <= 0 -> 0 <= width -> 0 <= height ->
  Canvas.renderBlastWave frameData explosiveMass width height = [].
Proof.
  intros Ht Hw Hh.
  destruct (Canvas.renderBlastWave frameData explosiveMass width height) as [| r rest] eqn:E;
    [reflexivity | exfalso].
  assert (Hr : In r (Canvas.renderBlastWave frameData explosiveMass width height))
    by (rewrite E; now left).
  apply blastRings_In in Hr as (m & c & i & Hm & Hc & Hi & Hpos & _).
  unfold Viewer.renderBlastWave in Hm, Hc. cbv zeta in Hm, Hc.
  cbn [Viewer.maxRadius Viewer.currentRadius] in Hm, Hc.
  destruct (JS.pow_third (JS.or explosiveMass 1000 / 1000)) as [s |] eqn:Es;
    [| discriminate].
  assert (Hs : 0 <= s).
  { unfold JS.pow_third in Es.
    destruct (Rlt_dec 0 _); [| destruct (Req_dec_T _ 0); [| discriminate]];
      injection Es as <-; [left; apply exp_pos | lra]. }
  simpl in Hm, Hc. injection Hm as <-. injection Hc as <-.
  assert (Hmin : 0 <= Rmin width height) by (apply Rmin_glb; assumption).
  assert (HiR : 0 <= IZR i) by (apply IZR_le; lia).
  assert (Hmax : 0 <= Rmin width height * 0.4 * s).
  { apply Rmult_le_pos; [apply Rmult_le_pos |]; lra. }
  nra.
Qed.

Lemma no_rings_before_the_wave_starts_witness :
  Canvas.renderBlastWave (Viewer.generateFrameData [] 0) 1000 800 500 = [].
Proof.
  apply no_rings_before_the_wave_starts; try lra.
  destruct (generateFrameData_extrapolated [] 0 eq_refl) as (Ht & _).
  rewrite Ht. lra.
Defined.

(** ** The impulse chart: a running sum *)

Module ImpulseFacts.

Import ImpulseChart.

Lemma impulseUpTo_0 (data : list DataPoint) : impulseUpTo data 0 = Some 0.
Proof. reflexivity. Qed.

Lemma impulseUpTo_S (data : list DataPoint) (k : nat) :
  impulseUpTo data (S k) =
    match impulseUpTo data k with
    | None => None
    | Some acc =>
        match nth_error data (S k), nth_error data k with
        | Some di, Some dprev => Some (acc + pressure di * (time di - time dprev))
        | _, _ => None
        end
    end.
Proof.
  unfold impulseUpTo. rewrite (seq_S (S k)), fold_left_app.
  cbn [fold_left Nat.add]. destruct (fold_left _ (seq 0 (S k)) (Some 0)); [| reflexivity].
  cbn [Nat.ltb Nat.leb Nat.sub]. now rewrite Nat.sub_0_r.
Qed.

Lemma impulseUpTo_defined (data : list DataPoint) (k : nat) :
  (k < List.length data)%nat -> exists v, impulseUpTo data k = Some v.
Proof.
  induction k as [| k IH]; intros Hk.
  - exists 0. apply impulseUpTo_0.
  - destruct IH as [v Hv]; [lia |]. rewrite impulseUpTo_S, Hv.
    destruct (nth_error data (S k)) as [di |] eqn:Ei;
      [| apply nth_error_None in Ei; lia].
    destruct (nth_error data k) as [dp |] eqn:Ep;
      [| apply nth_error_None in Ep; lia].
    eexists. reflexivity.
Qed.

Lemma collect_Some {A : Type} (l : list (option A)) (r : list A) :
  collect l = Some r <-> l = map Some r.
Proof.
  revert r. induction l as [| [a |] l IH]; intros r; simpl.
  - split; [intros H; injection H as <-; reflexivity | destruct r; [reflexivity | discriminate]].
  - destruct (collect l) as [r' |] eqn:E.
    + split.
      * intros H. injection H as <-. simpl. f_equal. now apply IH.
      * destruct r as [| b r]; [discriminate |]. simpl. intros H.
        injection H as <- H. apply IH in H. now injection H as <-.
    + split; [discriminate |].
      destruct r as [| b r]; [discriminate |]. simpl. intros H.
      injection H as _ H. apply IH in H. discriminate.
  - split; [discriminate | destruct r; discriminate].
Qed.

Lemma nth_error_combine_seq {A : Type} (l : list A) (s k : nat) (a : A) :
  nth_error l k = Some a ->
  nth_error (combine (seq s (List.length l)) l) k = Some ((s + k)%nat, a).
Proof.
  revert s k. induction l as [| b l IH]; intros s [| k] H; simpl in *; try discriminate.
  - injection H as <-. now rewrite Nat.add_0_r.
  - rewrite (IH (S s) k H). do 2 f_equal. lia.
Qed.

(** The points of [impulseData], by index. *)
Lemma impulseData_nth (data : list DataPoint) (pts : list ImpulsePoint)
  (k : nat) (p : DataPoint) :
  impulseData data = Some pts -> nth_error data k = Some p ->
  exists v, impulseUpTo data k = Some v
            /\ nth_error pts k =
                 Some {| point_time := time p; impulse := v;
                         point_velocity := velocity_or_0 p |}.
Proof.
  unfold impulseData. intros Hc Hp. apply collect_Some in Hc.
  assert (Hk : (k < List.length data)%nat) by (apply nth_error_Some; congruence).
  destruct (impulseUpTo_defined data k Hk) as [v Hv]. exists v. split; [exact Hv |].
  assert (H : nth_error (map Some pts) k =
              Some (Some {| point_time := time p; impulse := v;
                            point_velocity := velocity_or_0 p |})).
  { rewrite <- Hc, nth_error_map, (nth_error_combine_seq data 0 k p Hp). simpl.
    now rewrite Hv. }
  rewrite nth_error_map in H. destruct (nth_error pts k); simpl in H; congruence.
Qed.

Lemma impulseData_defined (data : list DataPoint) :
  exists pts, impulseData data = Some pts /\ List.length pts = List.length data.
Proof.
  unfold impulseData.
  set (f := fun '(index, point) =>
              match impulseUpTo data index with
              | Some impulse =>
                  Some {| point_time := time point; impulse := impulse;
                          point_velocity := velocity_or_0 point |}
              | None => None
              end).
  assert (H : forall l : list (nat * DataPoint),
             (forall ip, In ip l -> (fst ip < List.length data)%nat) ->
             exists pts, collect (map f l) = Some pts /\ List.length pts = List.length l).
  { induction l as [| [i p] l IH]; intros Hl.
    - exists []. split; reflexivity.
    - destruct IH as (pts & Hpts & Hlen); [intros ip Hip; apply Hl; now right |].
      destruct (impulseUpTo_defined data i) as [v Hv]; [apply (Hl (i, p)); now left |].
      simpl. rewrite Hv, Hpts. eexists. split; [reflexivity |]. simpl. now rewrite Hlen. }
  destruct (H (combine (seq 0 (List.length data)) data)) as (pts & Hpts & Hlen).
  - intros [i p] Hip. apply in_combine_l in Hip. apply in_seq in Hip. simpl. lia.
  - exists pts. split; [exact Hpts |].
    now rewrite Hlen, length_combine, length_seq, Nat.min_id.
Qed.

End ImpulseFacts.

(** The impulse chart never reads outside its data: for every data list
    [impulseData] yields one point per data point, with that point's time.
    The first impulse is 0, and each later one is its predecessor plus
    [pressure * (time - previous time)] of its own data point: the impulse
    recomputed from scratch for every index is the running sum. *)
Theorem impulse_is_running_sum (data : list ImpulseChart.DataPoint) :
  exists pts,
    ImpulseChart.impulseData data = Some pts
    /\ List.length pts = List.length data
    /\ (forall k p pt,
          nth_error data k = Some p -> nth_error pts k = Some pt ->
          ImpulseChart.point_time pt = ImpulseChart.time p
          /\ ImpulseChart.point_velocity pt = ImpulseChart.velocity_or_0 p)
    /\ (forall pt, nth_error pts 0 = Some pt -> ImpulseChart.impulse pt = 0)
    /\ (forall k p p' pt pt',
          nth_error data k = Some p -> nth_error data (S k) = Some p' ->
          nth_error pts k = Some pt -> nth_error pts (S k) = Some pt' ->
          ImpulseChart.impulse pt' =
            ImpulseChart.impulse pt
            + ImpulseChart.pressure p' * (ImpulseChart.time p' - ImpulseChart.time p)).
Proof.
  destruct (ImpulseFacts.impulseData_defined data) as (pts & Hpts & Hlen).
  exists pts. split; [exact Hpts |]. split; [exact Hlen |]. split; [| split].
  - intros k p pt Hp Hpt.
    destruct (ImpulseFacts.impulseData_nth data pts k p Hpts Hp) as (v & _ & Hk).
    rewrite Hk in Hpt. injection Hpt as <-. split; reflexivity.
  - intros pt Hpt.
    destruct (nth_error data 0) as [p |] eqn:Hp.
    + destruct (ImpulseFacts.impulseData_nth data pts 0 p Hpts Hp) as (v & Hv & Hk).
      rewrite ImpulseFacts.impulseUpTo_0 in Hv. injection Hv as <-.
      rewrite Hk in Hpt. now injection Hpt as <-.
    + apply nth_error_None in Hp. rewrite <- Hlen in Hp.
      apply nth_error_None in Hp. congruence.
  - intros k p p' pt pt' Hp Hp' Hpt Hpt'.
    destruct (ImpulseFacts.impulseData_nth data pts k p Hpts Hp) as (v & Hv & Hk).
    destruct (ImpulseFacts.impulseData_nth data pts (S k) p' Hpts Hp') as (v' & Hv' & Hk').
    rewrite Hk in Hpt. rewrite Hk' in Hpt'. injection Hpt as <-. injection Hpt' as <-.
    rewrite ImpulseFacts.impulseUpTo_S, Hv, Hp', Hp in Hv'. injection Hv' as <-.
    reflexivity.
Qed.

Lemma impulseUpTo_monotone (data : list ImpulseChart.DataPoint) :
  (forall p, In p data -> 0 <= ImpulseChart.pressure p) ->
  (forall k p p', nth_error data k = Some p -> nth_error data (S k) = Some p' ->
                  ImpulseChart.time p <= ImpulseChart.time p') ->
  forall k v, ImpulseChart.impulseUpTo data k = Some v ->
    0 <= v
    /\ forall v', ImpulseChart.impulseUpTo data (S k) = Some v' -> v <= v'.
Proof.
  intros Hpos Htime.
  assert (Hstep : forall k v v',
             ImpulseChart.impulseUpTo data k = Some v ->
             ImpulseChart.impulseUpTo data (S k) = Some v' -> v <= v').
  { intros k v v' Hv Hv'. rewrite ImpulseFacts.impulseUpTo_S, Hv in Hv'.
    destruct (nth_error data (S k)) as [di |] eqn:Ei; [| discriminate].
    destruct (nth_error data k) as [dp |] eqn:Ep; [| discriminate].
    injection Hv' as <-.
    pose proof (Hpos di (nth_error_In _ _ Ei)). pose proof (Htime k dp di Ep Ei). nra. }
  intros k v Hv. split; [| intros v'; now apply Hstep].
  revert v Hv. induction k as [| k IH]; intros v Hv.
  - rewrite ImpulseFacts.impulseUpTo_0 in Hv. injection Hv as <-. lra.
  - destruct (ImpulseChart.impulseUpTo data k) as [u |] eqn:Eu.
    + specialize (IH u eq_refl). pose proof (Hstep k u v Eu Hv). lra.
    + rewrite ImpulseFacts.impulseUpTo_S, Eu in Hv. discriminate.
Qed.

(** When no pressure is negative and the times do not decrease, the impulse
    curve starts at 0 and never falls: every impulse is non-negative and at
    most its successor. *)
Theorem impulse_never_falls
  (data : list ImpulseChart.DataPoint) (pts : list ImpulseChart.ImpulsePoint) :
  ImpulseChart.impulseData data = Some pts ->
  (forall p, In p data -> 0 <= ImpulseChart.pressure p) ->
  (forall k p p', nth_error data k = Some p -> nth_error data (S k) = Some p' ->
                  ImpulseChart.time p <= ImpulseChart.time p') ->
  forall k pt,
    nth_error pts k = Some pt ->
    0 <= ImpulseChart.impulse pt
    /\ forall pt', nth_error pts (S k) = Some pt' ->
         ImpulseChart.impulse pt <= ImpulseChart.impulse pt'.
Proof.
  intros Hpts Hpos Htime k pt Hpt.
  destruct (ImpulseFacts.impulseData_defined data) as (pts' & Hpts' & Hlen).
  assert (pts' = pts) by congruence. subst pts'.
  assert (Hdata : forall n q, nth_error pts n = Some q ->
            exists p v, nth_error data n = Some p
                        /\ ImpulseChart.impulseUpTo data n = Some v
                        /\ ImpulseChart.impulse q = v).
  { intros n q Hq.
    destruct (nth_error data n) as [p |] eqn:Hp.
    - destruct (ImpulseFacts.impulseData_nth data pts n p Hpts Hp) as (v & Hv & Hn).
      exists p, v. rewrite Hn in Hq. injection Hq as <-. auto.
    - apply nth_error_None in Hp. rewrite <- Hlen in Hp.
      apply nth_error_None in Hp. congruence. }
  destruct (Hdata k pt Hpt) as (p & v & _ & Hv & ->).
  destruct (impulseUpTo_monotone data Hpos Htime k v Hv) as [H0 Hnext].
  split; [exact H0 |]. intros pt' Hpt'.
  destruct (Hdata (S k) pt' Hpt') as (p' & v' & _ & Hv' & ->). now apply Hnext.
Qed.

Lemma impulse_never_falls_witness :
  exists pts,
    ImpulseChart.impulseData chartPoints = Some pts
    /\ forall pt, nth_error pts 1 = Some pt -> 0 <= ImpulseChart.impulse pt.
Proof.
  eexists. split; [reflexivity |].
  intros pt Hpt.
  refine (proj1 (impulse_never_falls chartPoints _ eq_refl _ _ 1%nat pt Hpt)).
  - intros p [<- | [<- | []]]; simpl; lra.
  - intros [| [| k]] p p' Hp Hp'; simpl in *; try discriminate.
    injection Hp as <-. injection Hp' as <-. simpl. lra.
Defined.

(** ** The mock simulation in the viewer *)

Lemma mockFrames_index (i : Z) :
  (0 <= i < 250)%Z -> JS.index SimulationPage.mockFrames i = Some (SimulationPage.mockFrame i).
Proof.
  intros Hi. unfold SimulationPage.mockFrames.
  rewrite index_map, (index_upto 250 i) by (simpl; lia). reflexivity.
Qed.

Lemma PI_upper_bound : PI <= 52 / 15.
Proof.
  destruct (PI_ineq 1) as [_ H].
  unfold sum_f_R0, tg_alt, PI_tg in H. simpl in H. lra.
Qed.

(** The simulation data served for every simulation id has samples whose
    velocity is exactly 0, for instance sample 94 ([sin 4.7 < 0]).  The viewer
    does not show 0 for that frame but the analytic velocity at 9.4 s, which is
    positive. *)
Lemma mock_frame_94_velocity_is_replaced :
  JS.index SimulationPage.mockFrames 94 = Some (SimulationPage.mockFrame 94)
  /\ Viewer.velocity (SimulationPage.mockFrame 94) = 0
  /\ Viewer.maxVelocity (Viewer.generateFrameData SimulationPage.mockFrames 94)
     = Viewer.analyticVelocity (94 * 0.1)
  /\ 0 < Viewer.maxVelocity (Viewer.generateFrameData SimulationPage.mockFrames 94).
Proof.
  pose proof PI_upper_bound as Hhi. pose proof PI2_3_2 as Hlo.
  assert (Hidx := mockFrames_index 94 ltac:(lia)).
  assert (Hv : Viewer.velocity (SimulationPage.mockFrame 94) = 0).
  { cbn [SimulationPage.mockFrame Viewer.velocity].
    assert (Hs : sin (94 * 0.05) < 0) by (apply sin_lt_0; lra).
    rewrite Rmax_left by lra. lra. }
  destruct (generateFrameData_supplied _ 94 _ Hidx) as (Ht & _ & Hmv).
  cbn [SimulationPage.mockFrame Viewer.time] in Ht.
  rewrite or_truthy in Ht by lra.
  rewrite Ht, Hv in Hmv. rewrite or_falsy in Hmv by lra.
  split; [exact Hidx |]. split; [exact Hv |]. split; [exact Hmv |].
  rewrite Hmv. unfold Viewer.analyticVelocity.
  assert (Hs : 0 < sin (94 * 0.1 * 1.5)).
  { replace (94 * 0.1 * 1.5) with ((14.1 - 4 * PI) + 2 * INR 2 * PI) by (simpl; lra).
    rewrite sin_period. apply sin_gt_0; lra. }
  rewrite Rmax_right by lra.
  pose proof (exp_pos (- (94 * 0.1) * 0.5)).
  apply Rmult_lt_0_compat; [apply Rmult_lt_0_compat |]; lra.
Qed.

Lemma mockFrame_pressure_bounds (i : Z) :
  (0 <= i < 250)%Z ->
  Viewer.pressure (SimulationPage.mockFrame i)
    = 15 * exp (- IZR i * 0.02) * (1 - IZR i * 0.004)
  /\ 0 < Viewer.pressure (SimulationPage.mockFrame i) <= 15.
Proof.
  intros [Hlo Hhi]. cbn [SimulationPage.mockFrame Viewer.pressure].
  assert (HiR : 0 <= IZR i <= 249) by (split; apply IZR_le; lia).
  rewrite Rmax_right by lra.
  pose proof (exp_pos (- IZR i * 0.02)) as He.
  assert (He1 : exp (- IZR i * 0.02) <= 1).
  { replace (- IZR i * 0.02) with (- (IZR i * 0.02)) by lra. apply exp_neg_le_1. lra. }
  split; [reflexivity |]. split.
  - apply Rmult_lt_0_compat; [apply Rmult_lt_0_compat |]; lra.
  - nra.
Qed.

(** Shown in the viewer, the mock simulation of the simulation page has
    exactly 250 frames, and every frame [i] of it takes its time [0.1 * i] and
    its pressure from the sample: [maxPressure] is 15 times the sample, that
    is [225 * exp (-0.02 i) * (1 - 0.004 i)], a value in [(0, 225]]. *)
Theorem mock_frames_in_the_viewer (i : Z) :
  (0 <= i < 250)%Z ->
  let fr := Viewer.generateFrameData SimulationPage.mockFrames i in
  Viewer.totalFrames (Viewer.initialState SimulationPage.mockFrames) = 250%Z
  /\ Viewer.frame_time fr = IZR i * 0.1
  /\ Viewer.maxPressure fr = 15 * Viewer.pressure (SimulationPage.mockFrame i)
  /\ Viewer.maxPressure fr = 225 * exp (- IZR i * 0.02) * (1 - IZR i * 0.004)
  /\ 0 < Viewer.maxPressure fr <= 225.
Proof.
  intros Hi fr.
  destruct (generateFrameData_supplied _ i _ (mockFrames_index i Hi)) as (Ht & Hp & _).
  fold fr in Ht, Hp.
  destruct (mockFrame_pressure_bounds i Hi) as (Heq & Hpos & Hle).
  rewrite or_truthy in Hp by lra.
  split; [reflexivity |]. split; [| split; [| split]].
  - rewrite Ht. cbn [SimulationPage.mockFrame Viewer.time].
    unfold JS.or. now destruct (Req_dec_T (IZR i * 0.1) 0).
  - rewrite Hp. lra.
  - rewrite Hp, Heq. lra.
  - rewrite Hp. lra.
Qed.

Lemma mock_frames_in_the_viewer_witness :
  0 < Viewer.maxPressure (Viewer.generateFrameData SimulationPage.mockFrames 100) <= 225.
Proof.
  destruct (mock_frames_in_the_viewer 100) as (_ & _ & _ & _ & H); [lia | exact H].
Defined.

Lemma fold_left_Rmax_head (rest : list R) (v : R) :
  (forall u, In u rest -> u <= v) -> fold_left Rmax rest v = v.
Proof.
  induction rest as [| u rest IH]; intros H; simpl; [reflexivity |].
  rewrite Rmax_left by (apply H; now left). apply IH. intros w Hw. apply H. now right.
Qed.

Lemma mock_peak_pressure_and_first_frame :
  SimulationPage.peakPressure SimulationPage.mockFrames = Some 15
  /\ Viewer.maxPressure (Viewer.generateFrameData SimulationPage.mockFrames 0) = 225.
Proof.
  assert (H0 : Viewer.pressure (SimulationPage.mockFrame 0) = 15).
  { destruct (mockFrame_pressure_bounds 0 ltac:(lia)) as (Heq & _).
    rewrite Heq. replace (- 0 * 0.02) with 0 by lra. rewrite exp_0. lra. }
  split.
  - unfold SimulationPage.peakPressure, SimulationPage.mockFrames.
    change (JS.upto 250) with (0%Z :: map Z.of_nat (seq 1 249)).
    cbn [map SimulationPage.max_of]. rewrite H0. f_equal.
    apply fold_left_Rmax_head. intros u Hu.
    apply in_map_iff in Hu as (s & <- & Hs). apply in_map_iff in Hs as (i & <- & Hi).
    apply in_map_iff in Hi as (k & <- & Hk). apply in_seq in Hk.
    apply (mockFrame_pressure_bounds (Z.of_nat k)). lia.
  - destruct (generateFrameData_supplied _ 0 _ (mockFrames_index 0 ltac:(lia))) as (_ & Hp & _).
    rewrite Hp, H0. rewrite or_truthy by lra. lra.
Qed.

Lemma fold_left_Rmax_spec (rest : list R) (v : R) :
  (forall u, In u (v :: rest) -> u <= fold_left Rmax rest v)
  /\ In (fold_left Rmax rest v) (v :: rest).
Proof.
  revert v. induction rest as [| w rest IH]; intros v; simpl.
  - split; [intros u [<- | []]; lra | now left].
  - destruct (IH (Rmax v w)) as [Hub Hin]. split.
    + intros u [<- | [<- | Hu]].
      * apply Rle_trans with (Rmax v w); [apply Rmax_l | apply Hub; now left].
      * apply Rle_trans with (Rmax v w); [apply Rmax_r | apply Hub; now left].
      * apply Hub. now right.
    + destruct Hin as [Hin | Hin]; [| auto].
      rewrite <- Hin. unfold Rmax. destruct (Rle_dec v w); auto.
Qed.

(** For every non-empty frames list the page's peak pressure is the largest
    supplied pressure sample.  It bounds what the viewer shows for the
    supplied frames: a frame whose sample is not 0 has [maxPressure] equal to
    15 times its sample, hence at most 15 times the peak pressure of the
    summary. *)
Theorem viewer_pressure_is_15_times_the_sample (frames : list Viewer.FrameSample) :
  frames <> [] ->
  exists peak,
    SimulationPage.peakPressure frames = Some peak
    /\ (exists s', In s' frames /\ Viewer.pressure s' = peak)
    /\ (forall s', In s' frames -> Viewer.pressure s' <= peak)
    /\ (forall idx s,
          JS.index frames idx = Some s -> Viewer.pressure s <> 0 ->
          Viewer.maxPressure (Viewer.generateFrameData frames idx)
            = 15 * Viewer.pressure s
          /\ Viewer.maxPressure (Viewer.generateFrameData frames idx) <= 15 * peak).
Proof.
  intros Hne. unfold SimulationPage.peakPressure.
  destruct frames as [| s0 rest]; [contradiction |].
  cbn [map SimulationPage.max_of].
  destruct (fold_left_Rmax_spec (map Viewer.pressure rest) (Viewer.pressure s0))
    as [Hub Hmem].
  change (Viewer.pressure s0 :: map Viewer.pressure rest)
    with (map Viewer.pressure (s0 :: rest)) in Hub, Hmem.
  eexists. split; [reflexivity |]. split; [| split].
  - apply in_map_iff in Hmem as (s' & Hs' & Hin'). now exists s'.
  - intros s' Hs'. apply Hub. now apply in_map.
  - intros idx s Hs Hnz.
    assert (Hin : In s (s0 :: rest)) by (eapply index_In; eauto).
    destruct (generateFrameData_supplied (s0 :: rest) idx s Hs) as (_ & Hp & _).
    rewrite or_truthy in Hp by lra. rewrite Hp.
    pose proof (Hub (Viewer.pressure s) (in_map _ _ _ Hin)). lra.
Qed.

(** The mock simulation: the summary has a peak, and 15 times that peak
    bounds what the viewer shows for frame 0. *)
Lemma viewer_pressure_is_15_times_the_sample_witness :
  exists peak,
    SimulationPage.peakPressure SimulationPage.mockFrames = Some peak
    /\ Viewer.maxPressure (Viewer.generateFrameData SimulationPage.mockFrames 0)
       <= 15 * peak.
Proof.
  destruct (viewer_pressure_is_15_times_the_sample SimulationPage.mockFrames)
    as (peak & Hpeak & _ & _ & Hview).
  - intros H. apply (f_equal (@List.length _)) in H.
    unfold SimulationPage.mockFrames in H. rewrite length_map, length_upto in H.
    discriminate.
  - exists peak. split; [exact Hpeak |].
    apply (Hview 0%Z (SimulationPage.mockFrame 0) (mockFrames_index 0 ltac:(lia))).
    destruct (mockFrame_pressure_bounds 0 ltac:(lia)) as (_ & Hpos & _). lra.
Defined.

(** ** Bounding boxes *)

Lemma cos_latitude_pos (lat : R) :
  -90 < lat < 90 -> 0 < cos (lat * PI / 180) <= 1.
Proof.
  intros [Hlo Hhi]. pose proof PI_RGT_0 as Hpi. split.
  - apply cos_gt_0; nra.
  - apply COS_bound.
Qed.

Lemma lt_true (a b : R) : BoundingBox.lt a b = true <-> a < b.
Proof. unfold BoundingBox.lt. destruct (Rlt_dec a b); split; auto; discriminate. Qed.

Lemma le_true (a b : R) : BoundingBox.le a b = true <-> a <= b.
Proof. unfold BoundingBox.le. destruct (Rle_dec a b); split; auto; discriminate. Qed.

Lemma isValidBoundingBox_true (bbox : BoundingBox.BoundingBox) :
  BoundingBox.isValidBoundingBox bbox = true <->
  BoundingBox.south bbox < BoundingBox.north bbox
  /\ BoundingBox.west bbox < BoundingBox.east bbox
  /\ -90 <= BoundingBox.south bbox /\ BoundingBox.north bbox <= 90
  /\ -180 <= BoundingBox.west bbox /\ BoundingBox.east bbox <= 180.
Proof.
  unfold BoundingBox.isValidBoundingBox.
  rewrite !andb_true_iff, !lt_true, !le_true. tauto.
Qed.

(** The centre of a created box is the point it was created around, for
    every radius.  For a latitude strictly between -90 and 90 and a radius
    that is not negative, the box is [2 * radius / 111.32] degrees high and
    [height / cos (latitude)] degrees wide, so at least as wide as high. *)
Theorem created_box_is_centred (lat lng radiusKm : R) :
  -90 < lat < 90 -> 0 <= radiusKm ->
  let bbox := BoundingBox.createBoundingBox lat lng radiusKm in
  BoundingBox.getBoundingBoxCenter bbox = (lat, lng)
  /\ BoundingBox.height (BoundingBox.getBoundingBoxSize bbox) = 2 * radiusKm / 111.32
  /\ BoundingBox.width (BoundingBox.getBoundingBoxSize bbox)
     = BoundingBox.height (BoundingBox.getBoundingBoxSize bbox) / cos (lat * PI / 180)
  /\ BoundingBox.height (BoundingBox.getBoundingBoxSize bbox)
     <= BoundingBox.width (BoundingBox.getBoundingBoxSize bbox).
Proof.
  intros Hlat Hr bbox. destruct (cos_latitude_pos lat Hlat) as [Hc0 Hc1].
  unfold bbox, BoundingBox.createBoundingBox, BoundingBox.getBoundingBoxCenter,
    BoundingBox.getBoundingBoxSize. cbv zeta.
  cbn [BoundingBox.south BoundingBox.north BoundingBox.west BoundingBox.east
       BoundingBox.width BoundingBox.height].
  set (c := cos (lat * PI / 180)) in *.
  assert (Hk : 0 < 111.32) by lra. set (k := 111.32) in *.
  split; [f_equal; lra |]. split; [lra |]. split; [field; split; lra |].
  replace (lat + radiusKm / k - (lat - radiusKm / k))
    with (2 * radiusKm / k) by lra.
  replace (lng + radiusKm / (k * c) - (lng - radiusKm / (k * c)))
    with (2 * radiusKm / k / c) by (field; split; lra).
  assert (H : 0 <= 2 * radiusKm / k).
  { apply Rmult_le_pos; [lra | left; now apply Rinv_0_lt_compat]. }
  apply Rmult_le_reg_r with c; [exact Hc0 |].
  replace (2 * radiusKm / k / c * c) with (2 * radiusKm / k) by (field; split; lra).
  nra.
Qed.

Lemma created_box_is_centred_witness :
  BoundingBox.getBoundingBoxCenter (BoundingBox.createBoundingBox 40.7128 (-74.006) 1)
  = (40.7128, -74.006).
Proof.
  destruct (created_box_is_centred 40.7128 (-74.006) 1) as (H & _); [lra | lra | exact H].
Defined.

(** For a latitude strictly between -90 and 90, a created box is valid
    exactly when the radius is positive and the box fits into the latitudes
    [[-90, 90]] and the longitudes [[-180, 180]]; a radius that is 0 or
    negative never gives a valid box. *)
Theorem created_box_valid_iff (lat lng radiusKm : R) :
  -90 < lat < 90 ->
  let bbox := BoundingBox.createBoundingBox lat lng radiusKm in
  (BoundingBox.isValidBoundingBox bbox = true <->
     0 < radiusKm
     /\ -90 <= lat - radiusKm / 111.32 /\ lat + radiusKm / 111.32 <= 90
     /\ -180 <= lng - radiusKm / (111.32 * cos (lat * PI / 180))
     /\ lng + radiusKm / (111.32 * cos (lat * PI / 180)) <= 180)
  /\ (radiusKm <= 0 -> BoundingBox.isValidBoundingBox bbox = false).
Proof.
  intros Hlat bbox. destruct (cos_latitude_pos lat Hlat) as [Hc0 _].
  assert (Hiff : BoundingBox.isValidBoundingBox bbox = true <->
     0 < radiusKm
     /\ -90 <= lat - radiusKm / 111.32 /\ lat + radiusKm / 111.32 <= 90
     /\ -180 <= lng - radiusKm / (111.32 * cos (lat * PI / 180))
     /\ lng + radiusKm / (111.32 * cos (lat * PI / 180)) <= 180).
  { rewrite isValidBoundingBox_true.
    unfold bbox, BoundingBox.createBoundingBox. cbv zeta.
    cbn [BoundingBox.south BoundingBox.north BoundingBox.west BoundingBox.east].
    set (c := cos (lat * PI / 180)) in *.
    split.
    - intros (Hsn & Hwe & Hs & Hn & Hw & He). repeat split; try assumption. lra.
    - intros (Hr & Hs & Hn & Hw & He). repeat split; try assumption; try lra.
      assert (0 < radiusKm / (111.32 * c)); [| lra].
      apply Rdiv_lt_0_compat; [exact Hr | apply Rmult_lt_0_compat; lra]. }
  split; [exact Hiff |].
  intros Hr. apply not_true_is_false. intros E. apply Hiff in E. lra.
Qed.

Lemma created_box_valid_iff_witness :
  BoundingBox.isValidBoundingBox (BoundingBox.createBoundingBox 40.7128 (-74.006) 0) = false.
Proof.
  destruct (created_box_valid_iff 40.7128 (-74.006) 0) as (_ & H); [lra |].
  apply H. lra.
Defined.

(** A valid box has positive width and height, at most 360 and 180 degrees,
    and its centre lies strictly inside it. *)
Theorem valid_box_contains_its_centre (bbox : BoundingBox.BoundingBox) :
  BoundingBox.isValidBoundingBox bbox = true ->
  let size := BoundingBox.getBoundingBoxSize bbox in
  let centre := BoundingBox.getBoundingBoxCenter bbox in
  0 < BoundingBox.width size <= 360
  /\ 0 < BoundingBox.height size <= 180
  /\ BoundingBox.south bbox < fst centre < BoundingBox.north bbox
  /\ BoundingBox.west bbox < snd centre < BoundingBox.east bbox.
Proof.
  intros Hv. apply isValidBoundingBox_true in Hv as (Hsn & Hwe & Hs & Hn & Hw & He).
  unfold BoundingBox.getBoundingBoxSize, BoundingBox.getBoundingBoxCenter. simpl.
  repeat split; lra.
Qed.

Lemma valid_box_contains_its_centre_witness :
  0 < BoundingBox.width
        (BoundingBox.getBoundingBoxSize
           {| BoundingBox.south := 40; BoundingBox.west := -75;
              BoundingBox.north := 41; BoundingBox.east := -74 |}) <= 360.
Proof.
  destruct (valid_box_contains_its_centre
              {| BoundingBox.south := 40; BoundingBox.west := -75;
                 BoundingBox.north := 41; BoundingBox.east := -74 |}) as (H & _).
  - apply isValidBoundingBox_true. simpl. lra.
  - exact H.
Defined.

(** ** Cube-root scaling of the blast radius *)

Lemma Rpower_8_third : Rpower 8 (1 / 3) = 2.
Proof.
  replace 8 with (Rpower 2 (INR 3)) by (rewrite Rpower_pow by lra; simpl; lra).
  rewrite Rpower_mult. replace (INR 3 * (1 / 3)) with 1 by (simpl; lra).
  apply Rpower_1. lra.
Qed.

Lemma tntEquivalent_linear (mass : R) (type : string) :
  exists factor, 1 <= factor
                 /\ forall m, LeafletMap.tntEquivalent m type = m * factor.
Proof.
  unfold LeafletMap.tntEquivalent. destruct (String.eqb type "TNT").
  - exists 1. split; [lra | intros m; lra].
  - exists 1.34. split; [lra | intros m; reflexivity].
Qed.

(** For a positive mass the blast radius is a positive number of metres that
    follows the cube-root law: eight times the mass doubles the radius, and a
    larger mass of the same type gives a larger radius. *)
Theorem blast_radius_follows_cube_root_law (mass : R) (type : string) :
  0 < mass ->
  exists radius,
    LeafletMap.calculateBlastRadius mass type = Some radius
    /\ 0 < radius
    /\ LeafletMap.calculateBlastRadius (8 * mass) type = Some (2 * radius)
    /\ (forall mass', mass < mass' ->
          exists radius', LeafletMap.calculateBlastRadius mass' type = Some radius'
                          /\ radius < radius').
Proof.
  intros Hm. destruct (tntEquivalent_linear mass type) as (f & Hf & Heq).
  eexists. split; [apply calculateBlastRadius_cube_root; exact Hm |].
  assert (Hbase : 0 < mass * f / 1000).
  { apply Rdiv_lt_0_compat; [nra | lra]. }
  rewrite Heq. split; [| split].
  - pose proof (exp_pos (1 / 3 * ln (mass * f / 1000))) as H. unfold Rpower. lra.
  - rewrite calculateBlastRadius_cube_root by lra. rewrite Heq. f_equal.
    replace (8 * mass * f / 1000) with (8 * (mass * f / 1000)) by lra.
    rewrite <- Rpower_mult_distr by lra. rewrite Rpower_8_third. ring.
  - intros mass' Hlt. eexists.
    split; [apply calculateBlastRadius_cube_root; lra |].
    rewrite Heq.
    assert (H : Rpower (mass * f / 1000) (1 / 3) < Rpower (mass' * f / 1000) (1 / 3)).
    { apply Rlt_Rpower_l; [lra |]. split; [exact Hbase |].
      unfold Rdiv. apply Rmult_lt_compat_r; [lra | nra]. }
    lra.
Qed.

Lemma blast_radius_follows_cube_root_law_witness :
  LeafletMap.calculateBlastRadius (8 * 1000) "TNT" = Some (2 * 100).
Proof.
  assert (Hm : 0 < 1000) by lra.
  destruct (blast_radius_follows_cube_root_law 1000 "TNT" Hm) as (r & Hr & _ & H8 & _).
  destruct calculateBlastRadius_reference as [_ Href].
  rewrite Href in Hr. injection Hr as <-. exact H8.
Defined.

(** For TNT the map and the viewer scale alike: whenever the mass is not 0,
    the map's blast radius is 100 times the viewer's scaled distance (both
    are no number for a negative mass).  At mass 0 they differ: the map gives
    radius 0, the viewer scales as for 1000 kg. *)
Theorem map_and_viewer_scale_alike_for_TNT
  (frameData : Viewer.SimulationFrame) (mass width height : R) :
  (mass <> 0 ->
     LeafletMap.calculateBlastRadius mass "TNT" =
       option_map (fun s => s * 100)
         (Viewer.scaledDistance (Viewer.renderBlastWave frameData mass width height)))
  /\ LeafletMap.calculateBlastRadius 0 "TNT" = Some 0
  /\ Viewer.scaledDistance (Viewer.renderBlastWave frameData 0 width height) = Some 1.
Proof.
  split; [| split].
  - intros Hnz. unfold LeafletMap.calculateBlastRadius, Viewer.renderBlastWave.
    cbv zeta. cbn [Viewer.scaledDistance].
    rewrite tntEquivalent_TNT, or_truthy by exact Hnz. reflexivity.
  - unfold LeafletMap.calculateBlastRadius. rewrite tntEquivalent_TNT.
    replace (0 / 1000) with 0 by lra. rewrite pow_third_0. simpl. f_equal. lra.
  - unfold Viewer.renderBlastWave. cbv zeta. cbn [Viewer.scaledDistance].
    rewrite or_falsy by reflexivity. apply calculateBlastRadius_reference.
Qed.

(** ** Buildings on the canvas *)

(** The viewer maps coordinates to the canvas through a fixed window: on a
    canvas of positive size a coordinate lands on the canvas exactly when its
    first component lies in [[-74.006, -73.986]] and its second in
    [[40.7128, 40.7328]], whatever location the simulation is configured
    for. *)
Theorem canvas_shows_a_fixed_window (width height : R) (coord : R * R) :
  0 < width -> 0 < height ->
  let point := Overlay.canvasCoord width height coord in
  (0 <= fst point <= width /\ 0 <= snd point <= height) <->
  (-74.006 <= fst coord <= -73.986 /\ 40.7128 <= snd coord <= 40.7328).
Proof.
  intros Hw Hh. unfold Overlay.canvasCoord. cbn [fst snd].
  destruct coord as [c0 c1]. cbn [fst snd].
  assert (Hx : (c0 + 74.006) * width / 0.02 = (c0 + 74.006) * 50 * width) by lra.
  assert (Hy : (c1 - 40.7128) * height / 0.02 = (c1 - 40.7128) * 50 * height) by lra.
  rewrite Hx, Hy. split.
  - intros [[Hx0 Hx1] [Hy0 Hy1]]. repeat split; nra.
  - intros [[Hc0 Hc1] [Hd0 Hd1]]. repeat split; nra.
Qed.

(** The first vertex of the page's mock building, written latitude first, is
    mapped far to the right of an 800 x 500 canvas. *)
Lemma canvas_shows_a_fixed_window_witness :
  ~ (0 <= fst (Overlay.canvasCoord 800 500 (40.712, -74.007)) <= 800
     /\ 0 <= snd (Overlay.canvasCoord 800 500 (40.712, -74.007)) <= 500)
  /\ 800 < fst (Overlay.canvasCoord 800 500 (40.712, -74.007)).
Proof.
  split.
  - intros H.
    apply (canvas_shows_a_fixed_window 800 500 (40.712, -74.007)) in H; [| lra | lra].
    simpl in H. lra.
  - simpl. lra.
Defined.

Lemma floor_between (c : Z) (x : R) :
  0 <= x <= 80 -> (c <= Overlay.floor (IZR c + x) <= c + 80)%Z.
Proof.
  intros [H0 H1]. unfold Overlay.floor.
  destruct (base_Int_part (IZR c + x)) as [Hle Hgt]. split.
  - assert (H : (c - 1 < Int_part (IZR c + x))%Z); [| lia].
    apply lt_IZR. rewrite minus_IZR. lra.
  - apply le_IZR. rewrite plus_IZR. lra.
Qed.

Lemma baseColor_channels (building : Overlay.OSMBuilding) :
  exists r g b : Z,
    Overlay.baseColor building = [IZR r; IZR g; IZR b]
    /\ (80 <= r <= 120)%Z /\ (80 <= g <= 120)%Z /\ (80 <= b <= 120)%Z.
Proof.
  unfold Overlay.baseColor. cbv zeta.
  destruct (String.eqb _ "residential");
    [exists 120%Z, 100%Z, 80%Z; repeat split; lia |].
  destruct (String.eqb _ "commercial");
    [exists 80%Z, 100%Z, 120%Z; repeat split; lia |].
  destruct (String.eqb _ "industrial");
    [exists 100%Z, 80%Z, 80%Z; repeat split; lia |].
  exists 100%Z, 100%Z, 100%Z. repeat split; lia.
Qed.

(** [renderBuildings] fills one polygon for each building with at least 3
    coordinates and skips the others.  A polygon has as many vertices as its
    building has coordinates, and when the building's height is not negative
    its three colour channels lie in [[80, 200]]. *)
Theorem buildings_drawn_as_polygons
  (buildingsData : list Overlay.OSMBuilding) (width height : R) :
  let polygons := Overlay.renderBuildings buildingsData width height in
  List.length polygons
  = List.length
      (filter (fun b => (3 <=? List.length (Overlay.coordinates b))%nat) buildingsData)
  /\ (forall p, In p polygons ->
        exists b, In b buildingsData
                  /\ (3 <= List.length (Overlay.coordinates b))%nat
                  /\ Overlay.path p = map (Overlay.canvasCoord width height)
                                          (Overlay.coordinates b)
                  /\ List.length (Overlay.path p) = List.length (Overlay.coordinates b)
                  /\ List.length (Overlay.channels p) = 3%nat
                  /\ (0 <= Overlay.calculatedHeight b ->
                      forall c, In c (Overlay.channels p) -> (80 <= c <= 200)%Z)).
Proof.
  intros polygons. split.
  - unfold polygons, Overlay.renderBuildings.
    induction buildingsData as [| b l IH]; [reflexivity |].
    cbn [flat_map filter]. rewrite length_app, IH.
    destruct (Nat.ltb_spec (List.length (Overlay.coordinates b)) 3) as [Hlt | Hge];
      destruct (Nat.leb_spec 3 (List.length (Overlay.coordinates b))) as [Hle | Hgt];
      try lia; reflexivity.
  - intros p Hp. unfold polygons, Overlay.renderBuildings in Hp.
    apply in_flat_map in Hp as (b & Hb & Hp). exists b.
    destruct (Nat.ltb_spec (List.length (Overlay.coordinates b)) 3) as [Hlt | Hge];
      [destruct Hp |].
    destruct Hp as [<- | []].
    cbn [Overlay.path Overlay.channels].
    destruct (baseColor_channels b) as (r & g & bl & Hcol & Hr & Hg & Hbl).
    rewrite Hcol. cbn [map List.length].
    split; [exact Hb |]. split; [exact Hge |]. split; [reflexivity |].
    split; [apply length_map |]. split; [reflexivity |].
    intros Hh c Hc.
    assert (Hratio : 0 <= Rmin (JS.or (Overlay.calculatedHeight b) 10 / 100) 1 * 80 <= 80).
    { assert (H0 : 0 <= JS.or (Overlay.calculatedHeight b) 10) by (apply or_nonneg; lra).
      pose proof (Rmin_r (JS.or (Overlay.calculatedHeight b) 10 / 100) 1).
      assert (0 <= Rmin (JS.or (Overlay.calculatedHeight b) 10 / 100) 1);
        [apply Rmin_glb; lra | lra]. }
    destruct Hc as [<- | [<- | [<- | []]]];
      match goal with
      | |- (_ <= Overlay.floor (IZR ?k + _) <= _)%Z =>
          pose proof (floor_between k _ Hratio); lia
      end.
Qed.
